(** * COCO Vision: the visual regression comparison engine

    A shallow embedding of [coco_vision.py]: the pixel-diff engine and diff
    renderer of [ImageComparator.compare], the hash comparison of
    [ImageComparator.compare_hashes], the classification inlined in
    [CocoVision.compare] and [CocoVision.compare_local], and the batch
    auditor [CocoVision.audit_batch].

    Numbers.  A Python [float] is modelled by [pyfloat]: an exact rational
    or [nan].  Arithmetic on the rational part is exact (no rounding); [nan]
    is kept because [np.mean] produces it on an empty array and every
    comparison with it is false.  Integers are [Z]; a count stored in a
    record is a [pyint], which remembers whether it came out of numpy.

    Effects.  The methods of [CocoVision] run in a state-and-exception
    monad [M] over a [World] (clock, files written) and an [Env] that
    stands for the collaborators (Figma, browser, Gemini, PIL). *)

From Stdlib Require Import QArith Qround Lqa HexString.
From stdpp Require Import gmap strings list fin_maps pretty.

Local Open Scope Z_scope.

(** ** Python floats *)

Inductive pyfloat : Type :=
  | nan
  | fin (q : Q).

Definition float_lift2 (f : Q -> Q -> Q) (a b : pyfloat) : pyfloat :=
  match a, b with
  | fin x, fin y => fin (f x y)
  | _, _ => nan
  end.

Definition float_add : pyfloat -> pyfloat -> pyfloat := float_lift2 Qplus.
Definition float_sub : pyfloat -> pyfloat -> pyfloat := float_lift2 Qminus.

(** [a / b] for a divisor that is not zero; callers below only divide by
    [255 ** 2], by a positive length, or behind a guard. *)
Definition float_div : pyfloat -> pyfloat -> pyfloat := float_lift2 Qdiv.

(** [a >= b]: false as soon as one side is [nan]. *)
Definition float_ge (a b : pyfloat) : bool :=
  match a, b with
  | fin x, fin y => Qle_bool y x
  | _, _ => false
  end.

Definition float_of_int (z : Z) : pyfloat := fin (inject_Z z).

(** [int(x)] on a finite float: truncation toward zero. *)
Definition int_of_Q (q : Q) : Z := Z.quot (Qnum q) (Z.pos (Qden q)).

(** An integer held by a record field: a Python [int], or the numpy
    scalar that [np.sum] returns.  The two print and compare alike, but
    [json.dump] only serialises the first and raises [TypeError] on the
    second. *)
Inductive pyint : Type :=
  | py_int (z : Z)
  | np_int64 (z : Z).

Definition int_value (n : pyint) : Z :=
  match n with
  | py_int z => z
  | np_int64 z => z
  end.

Definition json_serializable (n : pyint) : bool :=
  match n with
  | py_int _ => true
  | np_int64 _ => false
  end.

(** ** Data structures *)

Inductive ComparisonResult : Type :=
  | PASS
  | FAIL
  | WARNING
  | ERROR.

Definition ComparisonResult_eqb (a b : ComparisonResult) : bool :=
  match a, b with
  | PASS, PASS | FAIL, FAIL | WARNING, WARNING | ERROR, ERROR => true
  | _, _ => false
  end.

(** The values a [Dict] decoded by [json.loads] can hold. *)
#[warnings="-register-all"]
Inductive json : Type :=
  | JNull
  | JBool (b : bool)
  | JNum (q : Q)
  | JStr (s : string)
  | JArr (l : list json)
  | JObj (l : list (string * json)).

Abbreviation Dict := (gmap string json).

(** Truthiness of a dict: it is not empty. *)
Definition dict_truthy (d : Dict) : bool := negb (Nat.eqb (size d) 0).

(** [key in d]. *)
Definition dict_contains (key : string) (d : Dict) : bool :=
  match d !! key with
  | Some _ => true
  | None => false
  end.

(** [v == s] for a string literal [s]. *)
Definition json_eq_str (v : json) (s : string) : bool :=
  match v with
  | JStr x => String.eqb x s
  | _ => false
  end.

(** ** Classification (CocoVision.compare, "Determine result") *)

Definition determine_result (similarity threshold : pyfloat) : ComparisonResult :=
  if float_ge similarity threshold then PASS
  else if float_ge similarity (float_sub threshold (fin 0.1)) then WARNING
  else FAIL.

(** "Override with Gemini recommendation if available". *)
Definition override_result (semantic_analysis : option Dict)
    (result : ComparisonResult) : ComparisonResult :=
  match semantic_analysis with
  | Some sa =>
      if dict_truthy sa && dict_contains "recommendation" sa then
        match sa !! "recommendation" with
        | Some r =>
            if json_eq_str r "BLOCK" then FAIL
            else if json_eq_str r "FIX" then WARNING
            else result
        | None => result
        end
      else result
  | None => result
  end.

(** The classification step of [CocoVision.compare]: base rule, then
    override. *)
Definition classify (similarity threshold : pyfloat)
    (semantic_analysis : option Dict) : ComparisonResult :=
  override_result semantic_analysis (determine_result similarity threshold).

(** Severity order of the three automated verdicts. *)
Definition severity (r : ComparisonResult) : nat :=
  match r with
  | PASS => 0
  | WARNING => 1
  | FAIL => 2
  | ERROR => 3
  end.

(** A semantic judgment whose recommendation is [rec]. *)
Definition recommends (sa : Dict) (rec : string) : Prop :=
  sa !! "recommendation" = Some (JStr rec).

(** ** Images

    A decoded RGB image: its size and its pixels in row-major order, each
    pixel the tuple of its channel values.  [np.array(img)] has shape
    [(height, width, 3)] and the same row-major content. *)

Abbreviation pixel := (list Z).

Record Image : Type := {
  width : nat;
  height : nat;
  data : list pixel
}.

(** [img.size] *)
Definition size_of (img : Image) : nat * nat := (width img, height img).

Definition size_eqb (a b : nat * nat) : bool :=
  Nat.eqb (fst a) (fst b) && Nat.eqb (snd a) (snd b).

(** [Image.new('RGB', size)]: all black. *)
Definition Image_new (size : nat * nat) : Image :=
  {| width := fst size; height := snd size;
     data := replicate (fst size * snd size) [0; 0; 0] |}.

(** [img.getpixel((x, y))]; [None] is PIL's [IndexError]. *)
Definition getpixel (img : Image) (xy : nat * nat) : option pixel :=
  let '(x, y) := xy in
  if (x <? width img)%nat && (y <? height img)%nat
  then data img !! (y * width img + x)%nat
  else None.

(** [img.putpixel((x, y), value)]; [None] is PIL's [IndexError]. *)
Definition putpixel (img : Image) (xy : nat * nat) (value : pixel) : option Image :=
  let '(x, y) := xy in
  if (x <? width img)%nat && (y <? height img)%nat
     && (y * width img + x <? length (data img))%nat
  then Some {| width := width img; height := height img;
               data := <[(y * width img + x)%nat := value]> (data img) |}
  else None.

(** A well-formed 8-bit RGB buffer: three channels in 0..255 per pixel and
    exactly [width * height] pixels. *)
Definition valid_pixel (p : pixel) : bool :=
  Nat.eqb (length p) 3 && forallb (fun c => (0 <=? c) && (c <=? 255)) p.

Definition valid_image (img : Image) : bool :=
  Nat.eqb (length (data img)) (width img * height img)
  && forallb valid_pixel (data img).

(** Non-empty: both dimensions positive. *)
Definition nonempty_image (img : Image) : bool :=
  (0 <? width img)%nat && (0 <? height img)%nat.

(** ** Pixel diff engine (ImageComparator.compare, "Calculate metrics") *)

(** [sum(...)] over integers. *)
Definition sum_Z (xs : list Z) : Z := foldr Z.add 0 xs.

(** [ImageChops.difference(img1, img2)] as an array: the absolute
    difference of every channel. *)
Definition difference (img1 img2 : Image) : list pixel :=
  zip_with (zip_with (fun a b => Z.abs (a - b))) (data img1) (data img2).

(** [np.any(diff_arr > 10, axis=2)] *)
Definition diff_mask (diff_arr : list pixel) : list bool :=
  map (existsb (fun c => 10 <? c)) diff_arr.

(** [np.sum(diff_mask)] *)
Definition np_sum_mask (mask : list bool) : pyint :=
  np_int64 (sum_Z (map (fun b : bool => if b then 1 else 0) mask)).

(** [((arr1.astype(float) - arr2.astype(float)) ** 2)], flattened. *)
Definition squared_error (arr1 arr2 : list pixel) : list Q :=
  zip_with (fun a b => (inject_Z a - inject_Z b) ^ 2)%Q (concat arr1) (concat arr2).

(** [np.mean]: [nan] on an empty array. *)
Definition np_mean (xs : list Q) : pyfloat :=
  match xs with
  | [] => nan
  | _ :: _ => fin (foldr Qplus 0%Q xs / inject_Z (Z.of_nat (length xs)))
  end.

Definition max_mse : Z := 255 ^ 2.

(** Lines "Calculate metrics" to "similarity = 1 - (mse / max_mse)":
    the similarity score and the number of differing pixels. *)
Definition pixel_metrics (img1 img2 : Image) : pyfloat * pyint :=
  let diff_arr := difference img1 img2 in
  let mask := diff_mask diff_arr in
  let pixel_diff_count := np_sum_mask mask in
  let mse := np_mean (squared_error (data img1) (data img2)) in
  let similarity := float_sub (fin 1) (float_div mse (float_of_int max_mse)) in
  (similarity, pixel_diff_count).

(** ** Diff renderer (ImageComparator.compare, "Generate diff image") *)

(** A [for] loop whose body may raise. *)
Fixpoint for_each {A S : Type} (xs : list A) (body : A -> S -> option S) (s : S)
    : option S :=
  match xs with
  | [] => Some s
  | a :: xs' => s' ← body a s; for_each xs' body s'
  end.

Definition highlight : pixel := [255; 0; 100].

(** [tuple(int(c * 0.3) for c in p1)] *)
Definition fade (p1 : pixel) : pixel :=
  map (fun c => int_of_Q (inject_Z c * 0.3)) p1.

(** [sum(abs(a - b) for a, b in zip(p1, p2))] *)
Definition channel_distance (p1 p2 : pixel) : Z :=
  sum_Z (zip_with (fun a b => Z.abs (a - b)) p1 p2).

(** The body of the two nested loops at position [(x, y)]. *)
Definition render_body (img1 img2 : Image) (y x : nat) (diff_img : Image)
    : option Image :=
  p1 ← getpixel img1 (x, y);
  p2 ← getpixel img2 (x, y);
  if 30 <? channel_distance p1 p2
  then putpixel diff_img (x, y) highlight
  else putpixel diff_img (x, y) (fade p1).

Definition render_diff (img1 img2 : Image) : option Image :=
  for_each (seq 0 (height img1))
    (fun y => for_each (seq 0 (width img1)) (render_body img1 img2 y))
    (Image_new (size_of img1)).

(** ** Perceptual hashes (ImageComparator.compare_hashes)

    [imagehash] is an external library.  On the hex strings that
    [str(ImageHash)] prints, [hex_to_hash] yields four bits per digit and
    the difference of two hashes is the number of positions where the bits
    differ; it raises on a string that is not hexadecimal and on hashes of
    different shapes.  [None] stands for the exception. *)

Definition digit_bits (d : N) : list bool :=
  [N.testbit d 3; N.testbit d 2; N.testbit d 1; N.testbit d 0].

Fixpoint hex_bits (hexstr : string) : option (list bool) :=
  match hexstr with
  | EmptyString => Some []
  | String c rest =>
      d ← HexString.ascii_to_digit c;
      bs ← hex_bits rest;
      Some (digit_bits d ++ bs)
  end.

Definition hex_to_hash (hexstr : string) : option (list bool) :=
  match hexstr with
  | EmptyString => None
  | _ => hex_bits hexstr
  end.

(** [h1 - h2]: the Hamming distance. *)
Definition hash_sub (h1 h2 : list bool) : option Z :=
  if Nat.eqb (length h1) (length h2)
  then Some (sum_Z (zip_with (fun a b : bool => if xorb a b then 1 else 0) h1 h2))
  else None.

Definition compare_hashes (has_imagehash : bool) (hash1 hash2 : string)
    : option pyfloat :=
  if negb has_imagehash then
    Some (if String.eqb hash1 hash2 then fin 1 else fin 0)
  else
    h1 ← hex_to_hash hash1;
    h2 ← hex_to_hash hash2;
    distance ← hash_sub h1 h2;
    let max_distance := Z.of_nat (String.length hash1) * 4 in
    Some (float_sub (fin 1)
            (float_div (float_of_int distance) (float_of_int max_distance))).

(** ** Result records *)

Record VisualDiff : Type := {
  diff_id : string;
  figma_source : string;
  code_source : string;
  similarity_score : pyfloat;
  threshold : pyfloat;
  result : ComparisonResult;
  diff_image_path : option string;
  pixel_diff_count : pyint;
  total_pixels : Z;
  semantic_analysis : option Dict;
  timestamp : string;
  duration_ms : Z
}.

Record VisionReport : Type := {
  report_id : string;
  report_timestamp : string;
  total_comparisons : Z;
  passed : Z;
  failed : Z;
  warnings : Z;
  average_similarity : pyfloat;
  comparisons : list VisualDiff
}.

(** ** The world of one run

    The collaborators the engine calls are given by an environment: the
    clock, the Figma export, the browser capture, the Gemini analyzer and
    PIL's resampling filter.  An acquisition that raises is [None].  The
    state is the number of clock readings taken and the files written.
    Console output ([_render_result], [_render_report]) is not
    modelled. *)

Record Env : Type := {
  time_time : nat -> Q;
  isoformat : Q -> string;
  figma_image : string -> string -> option Image;
  screenshot : string -> option string -> option Image;
  analyze_diff : string -> string -> Dict;
  lanczos : Image -> nat * nat -> list pixel;
  has_pil : bool
}.

Record World : Type := {
  clock_reads : nat;
  files : gmap string Image;
  saved_reports : gmap string VisualDiff;
  saved_audits : gmap string VisionReport
}.

Definition tick (w : World) : World :=
  {| clock_reads := S (clock_reads w); files := files w;
     saved_reports := saved_reports w; saved_audits := saved_audits w |}.

Definition write_file (path : string) (img : Image) (w : World) : World :=
  {| clock_reads := clock_reads w; files := <[path := img]> (files w);
     saved_reports := saved_reports w; saved_audits := saved_audits w |}.

Definition write_report (path : string) (d : VisualDiff) (w : World) : World :=
  {| clock_reads := clock_reads w; files := files w;
     saved_reports := <[path := d]> (saved_reports w);
     saved_audits := saved_audits w |}.

Definition write_audit (path : string) (r : VisionReport) (w : World) : World :=
  {| clock_reads := clock_reads w; files := files w;
     saved_reports := saved_reports w;
     saved_audits := <[path := r]> (saved_audits w) |}.

Inductive exn : Type :=
  | KeyError
  | IndexError
  | FileNotFoundError
  | TypeError
  | AcquisitionError.

Inductive outcome (A : Type) : Type :=
  | Returned (a : A)
  | Raised (e : exn).

Arguments Returned {A} a.
Arguments Raised {A} e.

(** Computations that read and write the world and may raise. *)
Definition M (A : Type) : Type := World -> outcome A * World.

Definition ret {A : Type} (a : A) : M A := fun w => (Returned a, w).

Definition raise {A : Type} (e : exn) : M A := fun w => (Raised e, w).

Definition bind {A B : Type} (m : M A) (k : A -> M B) : M B :=
  fun w =>
    match m w with
    | (Returned a, w') => k a w'
    | (Raised e, w') => (Raised e, w')
    end.

(** [try: x = m  except Exception: x = None] *)
Definition try_except {A : Type} (m : M A) : M (option A) :=
  fun w =>
    match m w with
    | (Returned a, w') => (Returned (Some a), w')
    | (Raised _, w') => (Returned None, w')
    end.

Definition or_raise {A : Type} (e : exn) (o : option A) : M A :=
  match o with
  | Some a => ret a
  | None => raise e
  end.

Declare Scope world_scope.
Delimit Scope world_scope with world.
Bind Scope world_scope with M.

Notation "x <- m ;; k" := (bind m (fun x => k))
  (at level 20, m at level 99, k at level 200, only parsing) : world_scope.
Notation "' pat <- m ;; k" := (bind m (fun x => match x with pat => k end))
  (at level 20, pat pattern, m at level 99, k at level 200, only parsing)
  : world_scope.
Notation "m ;; k" := (bind m (fun _ => k))
  (at level 100, k at level 200, only parsing, right associativity)
  : world_scope.

(** [OUTPUT_DIR]: [str(self.reports_dir / name)] *)
Definition reports_path (name : string) : string := "vision-reports/" +:+ name.

(** Truthiness of a string. *)
Definition str_truthy (s : string) : bool :=
  match s with
  | EmptyString => false
  | String _ _ => true
  end.

(** [figma_path and code_path]: both are set and not empty. *)
Definition both_paths (figma_path code_path : option string)
    : option (string * string) :=
  match figma_path, code_path with
  | Some fp, Some cp =>
      if str_truthy fp && str_truthy cp then Some (fp, cp) else None
  | _, _ => None
  end.

Record CocoVision : Type := {
  self_threshold : pyfloat
}.

Section Engine.

Context (E : Env).

Local Open Scope world_scope.

(** [time.time()] *)
Definition time_now : M Q :=
  fun w => (Returned (time_time E (clock_reads w)), tick w).

(** [datetime.now().isoformat()] *)
Definition datetime_now_isoformat : M string :=
  now <- time_now ;; ret (isoformat E now).

(** [FigmaExporter.export_frame] with an explicit output path: download
    the frame, write it, return the path. *)
Definition export_frame (file_key node_id output_path : string) : M string :=
  fun w =>
    match figma_image E file_key node_id with
    | Some img => (Returned output_path, write_file output_path img w)
    | None => (Raised AcquisitionError, w)
    end.

(** [ScreenshotCapturer.capture] with an explicit output path. *)
Definition capture (url : string) (selector : option string)
    (output_path : string) : M string :=
  fun w =>
    match screenshot E url selector with
    | Some img => (Returned output_path, write_file output_path img w)
    | None => (Raised AcquisitionError, w)
    end.

(** [Image.open(path).convert('RGB')] *)
Definition Image_open (path : string) : M Image :=
  fun w =>
    match files w !! path with
    | Some img => (Returned img, w)
    | None => (Raised FileNotFoundError, w)
    end.

(** [img.save(path)] *)
Definition Image_save (img : Image) (path : string) : M unit :=
  fun w => (Returned tt, write_file path img w).

(** [img2.resize(size, Image.Resampling.LANCZOS)] *)
Definition resize (img : Image) (size : nat * nat) : Image :=
  {| width := fst size; height := snd size; data := lanczos E img size |}.

(** [ImageComparator.compare] *)
Definition ImageComparator_compare (image1_path image2_path : string)
    (output_diff_path : option string) : M (pyfloat * pyint * option string) :=
  if negb (has_pil E) then ret (fin 0.5, py_int 0, None)
  else
    img1 <- Image_open image1_path ;;
    img2 <- Image_open image2_path ;;
    let img2 :=
      if negb (size_eqb (size_of img1) (size_of img2))
      then resize img2 (size_of img1) else img2 in
    let '(similarity, pixel_diff_count) := pixel_metrics img1 img2 in
    diff_image_path <-
      match output_diff_path with
      | Some path =>
          if str_truthy path then
            diff_img <- or_raise IndexError (render_diff img1 img2) ;;
            Image_save diff_img path ;;
            ret (Some path)
          else ret None
      | None => ret None
      end ;;
    ret (similarity, pixel_diff_count, diff_image_path).

(** [CocoVision._save_report]: [json.dump(diff.to_dict(), f)].  The dict
    holds the fields as they are, so the dump raises [TypeError] when the
    pixel count is a numpy scalar. *)
Definition _save_report (diff : VisualDiff) : M unit :=
  if json_serializable (pixel_diff_count diff)
  then fun w =>
         (Returned tt,
          write_report (reports_path (diff_id diff +:+ "_report.json")) diff w)
  else raise TypeError.

(** [CocoVision._save_full_report] *)
Definition _save_full_report (report : VisionReport) : M unit :=
  if forallb (fun c => json_serializable (pixel_diff_count c)) (comparisons report)
  then fun w =>
         (Returned tt,
          write_audit (reports_path (report_id report +:+ ".json")) report w)
  else raise TypeError.

(** [CocoVision.compare] up to and including the construction of the
    [VisualDiff] record. *)
Definition compare_diff (self : CocoVision)
    (figma_file_key figma_node_id code_url : string)
    (selector : option string) (use_gemini : bool) : M VisualDiff :=
  start_time <- time_now ;;
  now <- time_now ;;
  let comparison_id :=
    "vr_" +:+ pretty (int_of_Q now) +:+ "_" +:+ String.substring 0 8 figma_node_id in
  figma_path <-
    try_except (export_frame figma_file_key figma_node_id
                  (reports_path (comparison_id +:+ "_figma.png"))) ;;
  code_path <-
    try_except (capture code_url selector
                  (reports_path (comparison_id +:+ "_code.png"))) ;;
  '(similarity, pixel_diff, diff_path) <-
    match both_paths figma_path code_path with
    | Some (fp, cp) =>
        ImageComparator_compare fp cp
          (Some (reports_path (comparison_id +:+ "_diff.png")))
    | None => ret (fin 0, py_int 0, None)
    end ;;
  let semantic_analysis :=
    match both_paths figma_path code_path with
    | Some (fp, cp) => if use_gemini then Some (analyze_diff E fp cp) else None
    | None => None
    end in
  let result := determine_result similarity (self_threshold self) in
  let result := override_result semantic_analysis result in
  end_time <- time_now ;;
  let duration_ms := int_of_Q ((end_time - start_time) * 1000) in
  timestamp <- datetime_now_isoformat ;;
  ret {| diff_id := comparison_id;
         figma_source := figma_file_key +:+ ":" +:+ figma_node_id;
         code_source := code_url;
         similarity_score := similarity;
         threshold := self_threshold self;
         result := result;
         diff_image_path := diff_path;
         pixel_diff_count := pixel_diff;
         total_pixels := 0;
         semantic_analysis := semantic_analysis;
         timestamp := timestamp;
         duration_ms := duration_ms |}.

(** [CocoVision.compare]: build the record, render it, save it, return
    it. *)
Definition compare (self : CocoVision)
    (figma_file_key figma_node_id code_url : string)
    (selector : option string) (use_gemini : bool) : M VisualDiff :=
  diff <- compare_diff self figma_file_key figma_node_id code_url selector
            use_gemini ;;
  _save_report diff ;;
  ret diff.

(** [CocoVision.compare_local] up to the construction of the record. *)
Definition compare_local_diff (self : CocoVision)
    (figma_image_path code_url : string)
    (selector : option string) (use_gemini : bool) : M VisualDiff :=
  start_time <- time_now ;;
  now <- time_now ;;
  let comparison_id := "vr_" +:+ pretty (int_of_Q now) in
  code_path <-
    capture code_url selector (reports_path (comparison_id +:+ "_code.png")) ;;
  '(similarity, pixel_diff, diff_path) <-
    ImageComparator_compare figma_image_path code_path
      (Some (reports_path (comparison_id +:+ "_diff.png"))) ;;
  let semantic_analysis :=
    if use_gemini then Some (analyze_diff E figma_image_path code_path)
    else None in
  let result := determine_result similarity (self_threshold self) in
  end_time <- time_now ;;
  let duration_ms := int_of_Q ((end_time - start_time) * 1000) in
  timestamp <- datetime_now_isoformat ;;
  ret {| diff_id := comparison_id;
         figma_source := figma_image_path;
         code_source := code_url;
         similarity_score := similarity;
         threshold := self_threshold self;
         result := result;
         diff_image_path := diff_path;
         pixel_diff_count := pixel_diff;
         total_pixels := 0;
         semantic_analysis := semantic_analysis;
         timestamp := timestamp;
         duration_ms := duration_ms |}.

Definition compare_local (self : CocoVision)
    (figma_image_path code_url : string)
    (selector : option string) (use_gemini : bool) : M VisualDiff :=
  diff <- compare_local_diff self figma_image_path code_url selector
            use_gemini ;;
  _save_report diff ;;
  ret diff.

(** The loop of [audit_batch]: one [compare] per request, appended in
    order.  A request is a dict of strings; a missing key raises. *)
Fixpoint audit_loop (self : CocoVision) (comparisons : list (gmap string string))
    (use_gemini : bool) (results : list VisualDiff) : M (list VisualDiff) :=
  match comparisons with
  | [] => ret results
  | comp :: rest =>
      figma_file <- or_raise KeyError (comp !! "figma_file") ;;
      figma_node <- or_raise KeyError (comp !! "figma_node") ;;
      code_url <- or_raise KeyError (comp !! "code_url") ;;
      diff <- compare self figma_file figma_node code_url
                (comp !! "selector") use_gemini ;;
      audit_loop self rest use_gemini (results ++ [diff])
  end.

(** [sum(1 for r in results if r.result == outcome)] *)
Definition count_result (outcome : ComparisonResult) (results : list VisualDiff)
    : Z :=
  sum_Z (map (fun _ => 1)
           (List.filter (fun r => ComparisonResult_eqb (result r) outcome) results)).

(** [sum(r.similarity_score for r in results) / len(results) if results
    else 0] *)
Definition mean_similarity (results : list VisualDiff) : pyfloat :=
  match results with
  | [] => fin 0
  | _ :: _ =>
      float_div (foldl float_add (fin 0) (map similarity_score results))
                (float_of_int (Z.of_nat (length results)))
  end.

(** [CocoVision.audit_batch] *)
Definition audit_batch (self : CocoVision) (comparisons : list (gmap string string))
    (use_gemini : bool) : M VisionReport :=
  results <- audit_loop self comparisons use_gemini [] ;;
  let passed := count_result PASS results in
  let failed := count_result FAIL results in
  let warnings := count_result WARNING results in
  let avg_similarity := mean_similarity results in
  now <- time_now ;;
  timestamp <- datetime_now_isoformat ;;
  let report :=
    {| report_id := "audit_" +:+ pretty (int_of_Q now);
       report_timestamp := timestamp;
       total_comparisons := Z.of_nat (length results);
       passed := passed;
       failed := failed;
       warnings := warnings;
       average_similarity := avg_similarity;
       comparisons := results |} in
  _save_full_report report ;;
  ret report.

End Engine.

(** ** Notions used by the statements *)

(** The mean squared error in the words of the design: the squared
    difference of every channel of every pixel, summed, over the number of
    channel values [width * height * 3]. *)
Definition pixel_squared_error (p1 p2 : pixel) : Z :=
  sum_Z (zip_with (fun a b => (a - b) * (a - b)) p1 p2).

Definition total_squared_error (img1 img2 : Image) : Z :=
  sum_Z (zip_with pixel_squared_error (data img1) (data img2)).

Definition MSE (img1 img2 : Image) : Q :=
  inject_Z (total_squared_error img1 img2)
  / inject_Z (Z.of_nat (width img1 * height img1 * 3)).

(** Three channels, each in 0..255. *)
Definition channels_ok (p : pixel) : Prop :=
  length p = 3%nat /\ Forall (fun c => 0 <= c <= 255) p.

(** The colour the renderer's loop body writes for a pair of source
    pixels. *)
Definition shade (p1 p2 : pixel) : pixel :=
  if 30 <? channel_distance p1 p2 then highlight else fade p1.

(** The renderer's result in closed form. *)
Definition shaded (img1 img2 : Image) : Image :=
  {| width := width img1; height := height img1;
     data := zip_with shade (data img1) (data img2) |}.

(** Loop invariant of the renderer: after [k] positions in row-major
    order the buffer [d] holds the shaded pixels at every index below
    [k]. *)
Definition rendered_up_to (img1 img2 : Image) (k : nat) (d : Image) : Prop :=
  width d = width img1 /\ height d = height img1 /\
  length (data d) = (width img1 * height img1)%nat /\
  forall i, (i < k)%nat -> data d !! i = data (shaded img1 img2) !! i.

(** The entry of the diff mask at position [(x, y)]. *)
Definition mask_at (img1 img2 : Image) (x y : nat) : option bool :=
  diff_mask (difference img1 img2) !! (y * width img1 + x)%nat.


(** A request of the batch auditor names its three sources. *)
Definition request_ok (comp : gmap string string) : bool :=
  bool_decide (is_Some (comp !! "figma_file"))
  && bool_decide (is_Some (comp !! "figma_node"))
  && bool_decide (is_Some (comp !! "code_url")).


(** Result [d] is the answer to request [comp]. *)
Definition answers (comp : gmap string string) (d : VisualDiff) : Prop :=
  exists figma_file figma_node code_url,
    comp !! "figma_file" = Some figma_file /\
    comp !! "figma_node" = Some figma_node /\
    comp !! "code_url" = Some code_url /\
    figma_source d = figma_file +:+ ":" +:+ figma_node /\
    code_source d = code_url.

(** *** The claims that the code does not meet, as they are worded *)

(** "FIX forces the outcome to at least WARNING: it upgrades PASS to
    WARNING and leaves WARNING and FAIL unchanged; the outcome is never
    less severe than without any judgment." *)
Definition fix_only_tightens (s t : Q) (sa : Dict) : Prop :=
  (severity WARNING <= severity (classify (fin s) (fin t) (Some sa)))%nat /\
  (severity (classify (fin s) (fin t) None)
     <= severity (classify (fin s) (fin t) (Some sa)))%nat /\
  (classify (fin s) (fin t) None = PASS ->
     classify (fin s) (fin t) (Some sa) = WARNING) /\
  (classify (fin s) (fin t) None = WARNING ->
     classify (fin s) (fin t) (Some sa) = WARNING) /\
  (classify (fin s) (fin t) None = FAIL ->
     classify (fin s) (fin t) (Some sa) = FAIL).

(** "A result whose source image could not be acquired has outcome ERROR,
    similarity 0 and no diff image." *)
Definition reports_ERROR (d : VisualDiff) : Prop :=
  result d = ERROR /\ similarity_score d = fin 0 /\ diff_image_path d = None.


(** "The diff artifact highlights exactly the pixels flagged in the diff
    mask." *)
Definition highlights_exactly_the_mask (img1 img2 : Image) : Prop :=
  exists diff_img,
    render_diff img1 img2 = Some diff_img /\
    forall x y, (x < width img1)%nat -> (y < height img1)%nat ->
      (getpixel diff_img (x, y) = Some highlight
       <-> mask_at img1 img2 x y = Some true).

(** ** Sample inputs *)

Definition one_pixel (p : pixel) : Image :=
  {| width := 1; height := 1; data := [p] |}.

Definition white : pixel := [255; 255; 255].
Definition black : pixel := [0; 0; 0].

(** Two by two, three channels: a checkerboard and its copy with one
    pixel darkened. *)
Definition checkerboard : Image :=
  {| width := 2; height := 2; data := [white; black; black; white] |}.

Definition checkerboard_smudged : Image :=
  {| width := 2; height := 2; data := [white; black; [40; 0; 0]; white] |}.

Definition fix_judgment : Dict := {[ "recommendation" := JStr "FIX" ]}.

Definition default_vision : CocoVision := {| self_threshold := fin 0.95 |}.

Definition fresh_world : World :=
  {| clock_reads := 0; files := ∅; saved_reports := ∅; saved_audits := ∅ |}.

(** A run in which both acquisitions succeed and Gemini answers FIX. *)
Definition sample_env : Env :=
  {| time_time := fun n => inject_Z (1700000000 + Z.of_nat n);
     isoformat := fun t => pretty (int_of_Q t);
     figma_image := fun _ _ => Some checkerboard;
     screenshot := fun _ _ => Some checkerboard_smudged;
     analyze_diff := fun _ _ => fix_judgment;
     lanczos := fun _ size => replicate (fst size * snd size) black;
     has_pil := true |}.

(** The same run with the browser capture raising. *)
Definition capture_fails_env : Env :=
  {| time_time := time_time sample_env;
     isoformat := isoformat sample_env;
     figma_image := figma_image sample_env;
     screenshot := fun _ _ => None;
     analyze_diff := analyze_diff sample_env;
     lanczos := lanczos sample_env;
     has_pil := true |}.

Definition sample_request (node : string) : gmap string string :=
  {[ "figma_file" := "FILEKEY"; "figma_node" := node;
     "code_url" := "http://localhost:3000/" +:+ node ]}.

(** ** Further sample inputs *)

Definition block_judgment : Dict := {[ "recommendation" := JStr "BLOCK" ]}.

Definition ship_judgment : Dict := {[ "recommendation" := JStr "SHIP" ]}.

(** What the analyzer returns when Gemini is not available. *)
Definition error_judgment : Dict := {[ "error" := JStr "Gemini not available" ]}.

(** Two floats that denote the same number, or are both [nan]. *)
Definition float_eq (a b : pyfloat) : Prop :=
  match a, b with
  | nan, nan => True
  | fin x, fin y => (x == y)%Q
  | _, _ => False
  end.

(** The image with every channel scaled by 0.3. *)
Definition faded (img : Image) : Image :=
  {| width := width img; height := height img; data := map fade (data img) |}.

(** A hash as [str(ImageHash)] prints it: hexadecimal digits for a square
    number of bits. *)
Definition printed_hash (s : string) : bool :=
  match hex_to_hash s with
  | Some bits =>
      Nat.eqb (Nat.sqrt (length bits) * Nat.sqrt (length bits)) (length bits)
  | None => false
  end.

(** The second image as the comparator uses it: resized when the sizes
    differ. *)
Definition normalized (E : Env) (img1 img2 : Image) : Image :=
  if negb (size_eqb (size_of img1) (size_of img2))
  then resize E img2 (size_of img1) else img2.

(** The sample run on a machine without PIL and numpy. *)
Definition no_pil_env : Env :=
  {| time_time := time_time sample_env;
     isoformat := isoformat sample_env;
     figma_image := figma_image sample_env;
     screenshot := screenshot sample_env;
     analyze_diff := analyze_diff sample_env;
     lanczos := lanczos sample_env;
     has_pil := false |}.

(** The sample run with a screenshot of another size. *)
Definition wide_capture_env : Env :=
  {| time_time := time_time sample_env;
     isoformat := isoformat sample_env;
     figma_image := figma_image sample_env;
     screenshot := fun _ _ =>
       Some {| width := 3; height := 1; data := [white; white; white] |};
     analyze_diff := analyze_diff sample_env;
     lanczos := lanczos sample_env;
     has_pil := true |}.

(** A wall clock that never steps back. *)
Definition monotone_clock (E : Env) : Prop :=
  forall n, (time_time E n <= time_time E (S n))%Q.

(** The sample run with Gemini answering BLOCK. *)
Definition block_env : Env :=
  {| time_time := time_time sample_env;
     isoformat := isoformat sample_env;
     figma_image := figma_image sample_env;
     screenshot := screenshot sample_env;
     analyze_diff := fun _ _ => block_judgment;
     lanczos := lanczos sample_env;
     has_pil := true |}.

(** A computation that never writes an audit report. *)
Definition keeps_audits {A : Type} (m : M A) : Prop :=
  forall w r w', m w = (r, w') -> saved_audits w' = saved_audits w.

(** A request that lacks the URL of the page to capture. *)
Definition request_without_url : gmap string string :=
  {[ "figma_file" := "FILEKEY"; "figma_node" := "7:89" ]}.


(** ** The demo (run_demo)

    The demo compares two images it draws itself and classifies the
    similarity on its own:
    [PASS if similarity >= 0.95 else WARNING]. *)
Definition demo_result (similarity : pyfloat) : ComparisonResult :=
  if float_ge similarity (fin 0.95) then PASS else WARNING.

(** A result record with a given similarity, for the aggregation
    examples. *)
Definition sample_result (similarity : pyfloat) : VisualDiff :=
  {| diff_id := "vr_1700000001_1:23"; figma_source := "FILEKEY:1:23";
     code_source := "http://localhost:3000"; similarity_score := similarity;
     threshold := fin 0.95;
     result := determine_result similarity (fin 0.95);
     diff_image_path := None; pixel_diff_count := py_int 0;
     total_pixels := 0; semantic_analysis := None;
     timestamp := "1700000003"; duration_ms := 2000 |}.

(** * Properties *)

(** ** Python floats *)

Lemma Qle_bool_false (x y : Q) : Qle_bool x y = false <-> (y < x)%Q.
Proof.
  split.
  - intros H. apply Qnot_le_lt. intros Hle.
    apply Qle_bool_iff in Hle. congruence.
  - intros H. destruct (Qle_bool x y) eqn:Hb; [|done].
    apply Qle_bool_iff in Hb. lra.
Qed.

(** ** Classification *)

(** The base rule splits the line at [t - 0.1] and [t]. *)
Lemma determine_result_cases (s t : Q) :
  (t <= s /\ determine_result (fin s) (fin t) = PASS)%Q \/
  (t - 0.1 <= s /\ s < t /\ determine_result (fin s) (fin t) = WARNING)%Q \/
  (s < t - 0.1 /\ determine_result (fin s) (fin t) = FAIL)%Q.
Proof.
  unfold determine_result; cbn [float_ge float_sub float_lift2].
  destruct (Qle_bool t s) eqn:H1.
  - left. by apply Qle_bool_iff in H1.
  - apply Qle_bool_false in H1.
    destruct (Qle_bool (t - 0.1) s) eqn:H2.
    + right; left. by apply Qle_bool_iff in H2.
    + right; right. by apply Qle_bool_false in H2.
Qed.

(** The base rule never answers ERROR, whatever the floats. *)
Lemma determine_result_not_ERROR (similarity thr : pyfloat) :
  determine_result similarity thr <> ERROR.
Proof.
  unfold determine_result.
  destruct (float_ge similarity thr); [done|].
  by destruct (float_ge similarity (float_sub thr (fin 0.1))).
Qed.


Lemma dict_truthy_lookup (d : Dict) (k : string) (v : json) :
  d !! k = Some v -> dict_truthy d = true.
Proof.
  intros H. unfold dict_truthy.
  destruct (Nat.eqb_spec (size d) 0) as [Hz|]; [|done].
  apply map_size_empty_iff in Hz. subst d. by rewrite lookup_empty in H.
Qed.

Lemma override_FIX (sa : Dict) (r : ComparisonResult) :
  recommends sa "FIX" -> override_result (Some sa) r = WARNING.
Proof.
  unfold recommends, override_result, dict_contains. intros H.
  by rewrite (dict_truthy_lookup _ _ _ H), H.
Qed.

Lemma override_BLOCK (sa : Dict) (r : ComparisonResult) :
  recommends sa "BLOCK" -> override_result (Some sa) r = FAIL.
Proof.
  unfold recommends, override_result, dict_contains. intros H.
  by rewrite (dict_truthy_lookup _ _ _ H), H.
Qed.

(** C2, as worded, fails: at score 0 and threshold 0.95 the base rule
    answers FAIL and a FIX judgment turns it into WARNING. *)
Lemma fix_loosens_a_FAIL :
  recommends fix_judgment "FIX" /\ ~ fix_only_tightens 0 0.95 fix_judgment.
Proof.
  split; [reflexivity|].
  intros (_ & H & _). vm_compute in H. lia.
Qed.

(** C2, amended: a FIX judgment makes the outcome WARNING, whatever the
    base rule said; so it is at least WARNING, and it is at least as severe
    as the outcome without judgment exactly when that outcome is not
    FAIL. *)
Theorem fix_yields_WARNING (s t : Q) (sa : Dict) :
  recommends sa "FIX" ->
  classify (fin s) (fin t) (Some sa) = WARNING /\
  (severity WARNING <= severity (classify (fin s) (fin t) (Some sa)))%nat /\
  ((severity (classify (fin s) (fin t) None)
      <= severity (classify (fin s) (fin t) (Some sa)))%nat
   <-> classify (fin s) (fin t) None <> FAIL).
Proof.
  intros H. unfold classify. rewrite (override_FIX _ _ H).
  cbn [override_result].
  split; [done|]. split; [done|].
  destruct (determine_result_cases s t) as [[_ ->]|[(_ & _ & ->)|[_ ->]]];
    cbn; split; try done; lia.
Qed.

Lemma fix_yields_WARNING_witness :
  classify (fin 0.97) (fin 0.95) None = PASS /\
  classify (fin 0.97) (fin 0.95) (Some fix_judgment) = WARNING.
Proof.
  split; [reflexivity|].
  apply (fix_yields_WARNING 0.97 0.95 fix_judgment). reflexivity.
Defined.

(** ** A comparison whose acquisition fails *)

Lemma both_paths_None_l (code_path : option string) :
  both_paths None code_path = None.
Proof. reflexivity. Qed.

Lemma both_paths_None_r (figma_path : option string) :
  both_paths figma_path None = None.
Proof. by destruct figma_path. Qed.

(** When one of the two acquisitions raises, the comparator is never
    called: [compare] returns a record with similarity [0.0], classified by
    the base rule. *)
Lemma compare_acquisition_failure (E : Env) (self : CocoVision)
    (figma_file_key figma_node_id code_url : string)
    (selector : option string) (use_gemini : bool) (w : World) :
  figma_image E figma_file_key figma_node_id = None
  \/ screenshot E code_url selector = None ->
  exists d w',
    compare E self figma_file_key figma_node_id code_url selector use_gemini w
    = (Returned d, w') /\
    result d = determine_result (fin 0) (self_threshold self) /\
    similarity_score d = fin 0 /\
    diff_image_path d = None /\
    pixel_diff_count d = py_int 0 /\
    semantic_analysis d = None.
Proof.
  intros Hfail.
  unfold compare, compare_diff, bind, time_now, try_except, export_frame,
    capture, datetime_now_isoformat, _save_report, ret.
  cbn.
  destruct Hfail as [Hf|Hc].
  - rewrite Hf.
    destruct (screenshot E code_url selector); cbn;
      eexists _, _; (split; [reflexivity|]); cbn; done.
  - rewrite Hc.
    destruct (figma_image E figma_file_key figma_node_id); cbn;
      eexists _, _; (split; [reflexivity|]); cbn; done.
Qed.

(** C3, as worded, fails: with the default threshold a failed capture is
    reported as FAIL, not ERROR. *)
Lemma failed_capture_is_not_ERROR :
  exists d w',
    screenshot capture_fails_env "http://localhost:3000" None = None /\
    compare capture_fails_env default_vision "FILEKEY" "1:23"
      "http://localhost:3000" None true fresh_world = (Returned d, w') /\
    result d = FAIL /\
    ~ reports_ERROR d.
Proof.
  eexists _, _. split; [reflexivity|]. split; [vm_compute; reflexivity|].
  split; [reflexivity|]. intros [H _]. discriminate H.
Qed.

(** C3, amended: when the Figma export or the screenshot capture raises,
    [compare] still returns a result; its similarity is 0, it has no diff
    image, its pixel-diff count is 0 and it carries no semantic judgment;
    its outcome is what the base rule gives for similarity 0, which is
    never ERROR and is FAIL for every threshold above 0.1. *)
Theorem acquisition_failure_result (E : Env) (self : CocoVision)
    (figma_file_key figma_node_id code_url : string)
    (selector : option string) (use_gemini : bool) (w : World) :
  figma_image E figma_file_key figma_node_id = None
  \/ screenshot E code_url selector = None ->
  exists d w',
    compare E self figma_file_key figma_node_id code_url selector use_gemini w
    = (Returned d, w') /\
    similarity_score d = fin 0 /\
    diff_image_path d = None /\
    pixel_diff_count d = py_int 0 /\
    semantic_analysis d = None /\
    result d = classify (fin 0) (self_threshold self) None /\
    result d <> ERROR /\
    (forall t : Q, self_threshold self = fin t -> (0.1 < t)%Q -> result d = FAIL).
Proof.
  intros Hfail.
  destruct (compare_acquisition_failure E self figma_file_key figma_node_id
              code_url selector use_gemini w Hfail)
    as (d & w' & Hrun & Hres & Hsim & Hpath & Hcount & Hsem).
  exists d, w'. repeat split; try done.
  - rewrite Hres. apply determine_result_not_ERROR.
  - intros t Ht Hlt. rewrite Hres, Ht.
    destruct (determine_result_cases 0 t) as [[H _]|[(H & _)|[_ ->]]];
      [lra|lra|done].
Qed.

Lemma acquisition_failure_result_witness :
  exists d w',
    compare capture_fails_env default_vision "FILEKEY" "1:23"
      "http://localhost:3000" None true fresh_world = (Returned d, w') /\
    similarity_score d = fin 0 /\
    diff_image_path d = None /\
    result d = FAIL.
Proof.
  destruct (acquisition_failure_result capture_fails_env default_vision
              "FILEKEY" "1:23" "http://localhost:3000" None true fresh_world)
    as (d & w' & Hrun & Hsim & Hpath & _ & _ & _ & _ & Hfail).
  - right. reflexivity.
  - exists d, w'. repeat split; try done.
    apply (Hfail 0.95%Q); [reflexivity|reflexivity].
Defined.

(** ** Ratios of integers *)

Lemma inject_Z_pos (m : Z) : 0 < m -> (0 < inject_Z m)%Q.
Proof.
  intros H. change 0%Q with (inject_Z 0). by rewrite <- Zlt_Qlt.
Qed.

Lemma ratio_bounds (d m : Z) :
  0 <= d <= m -> 0 < m -> (0 <= inject_Z d / inject_Z m <= 1)%Q.
Proof.
  intros [Hd Hm] Hpos.
  pose proof (inject_Z_pos m Hpos) as Hm'.
  split.
  - apply Qle_shift_div_l; [done|]. rewrite Qmult_0_l.
    change 0%Q with (inject_Z 0). by rewrite <- Zle_Qle.
  - apply Qle_shift_div_r; [done|]. rewrite Qmult_1_l. by rewrite <- Zle_Qle.
Qed.

Lemma ratio_zero_iff (d m : Z) :
  0 < m -> (inject_Z d / inject_Z m == 0)%Q <-> d = 0.
Proof.
  intros Hpos.
  pose proof (inject_Z_pos m Hpos) as Hm'.
  split.
  - intros H.
    assert (Hne : ~ (inject_Z m == 0)%Q).
    { intros Hz. rewrite Hz in Hm'. by apply Qlt_irrefl in Hm'. }
    assert (H' : (inject_Z d == inject_Z m * 0)%Q).
    { rewrite <- H. symmetry. by apply Qmult_div_r. }
    rewrite Qmult_0_r in H'. change 0%Q with (inject_Z 0) in H'.
    by apply (proj1 (inject_Z_injective d 0)) in H'.
  - intros ->. unfold Qdiv. by rewrite Qmult_0_l.
Qed.

(** ** Hash comparison *)

Lemma sum_Z_cons (x : Z) (xs : list Z) : sum_Z (x :: xs) = x + sum_Z xs.
Proof. reflexivity. Qed.

Lemma sum_Z_app (xs ys : list Z) : sum_Z (xs ++ ys) = sum_Z xs + sum_Z ys.
Proof.
  induction xs as [|x xs IH]; [done|].
  cbn [app]. rewrite !sum_Z_cons, IH. lia.
Qed.

Lemma sum_Z_nonneg (xs : list Z) :
  Forall (fun x => 0 <= x) xs -> 0 <= sum_Z xs.
Proof. induction 1; [done|]. rewrite sum_Z_cons. lia. Qed.

Lemma hex_bits_length (hexstr : string) (bits : list bool) :
  hex_bits hexstr = Some bits ->
  length bits = (4 * String.length hexstr)%nat.
Proof.
  revert bits. induction hexstr as [|c rest IH]; intros bits; cbn.
  - by intros [= <-].
  - destruct (ascii_to_digit c) as [d|]; [cbn|done].
    destruct (hex_bits rest) as [bs|]; [cbn|done].
    intros [= <-]. cbn. rewrite (IH bs eq_refl). lia.
Qed.

Lemma hex_to_hash_length (hexstr : string) (bits : list bool) :
  hex_to_hash hexstr = Some bits ->
  length bits = (4 * String.length hexstr)%nat /\ (0 < String.length hexstr)%nat.
Proof.
  destruct hexstr as [|c rest]; [done|].
  unfold hex_to_hash. intros H. split; [by apply hex_bits_length|cbn; lia].
Qed.







(** ** Pixel diff engine *)

Lemma valid_pixel_spec (p : pixel) : valid_pixel p = true -> channels_ok p.
Proof.
  unfold valid_pixel, channels_ok. intros H.
  apply andb_prop in H as [Hlen Hch]. split.
  - by apply Nat.eqb_eq.
  - apply Forall_forall. intros c Hc.
    rewrite forallb_forall in Hch. apply list_elem_of_In in Hc.
    specialize (Hch c Hc). lia.
Qed.

Lemma valid_image_spec (img : Image) :
  valid_image img = true ->
  length (data img) = (width img * height img)%nat
  /\ Forall channels_ok (data img).
Proof.
  unfold valid_image. intros H. apply andb_prop in H as [Hlen Hpx]. split.
  - by apply Nat.eqb_eq.
  - apply Forall_forall. intros p Hp. apply valid_pixel_spec.
    rewrite forallb_forall in Hpx. apply Hpx. by apply list_elem_of_In.
Qed.

Lemma channels_ok_inv (p : pixel) :
  channels_ok p ->
  exists r g b, p = [r; g; b]
    /\ 0 <= r <= 255 /\ 0 <= g <= 255 /\ 0 <= b <= 255.
Proof.
  intros [Hlen Hch].
  destruct p as [|r [|g [|b [|]]]]; try discriminate.
  exists r, g, b. split; [done|].
  repeat match goal with
         | H : Forall _ (_ :: _) |- _ => apply Forall_cons in H as [? H]
         end.
  done.
Qed.

Lemma Qsquare (x : Q) : (x ^ 2 == x * x)%Q.
Proof. reflexivity. Qed.

Lemma squared_channel (a b : Z) :
  ((inject_Z a - inject_Z b) ^ 2 == inject_Z ((a - b) * (a - b)))%Q.
Proof.
  rewrite Qsquare, inject_Z_mult. unfold Z.sub.
  rewrite inject_Z_plus, inject_Z_opp. reflexivity.
Qed.

(** The flattened array of squared errors has three entries per pixel and
    sums to the total squared error. *)
Lemma squared_error_total (ps1 ps2 : list pixel) :
  Forall channels_ok ps1 -> Forall channels_ok ps2 ->
  length ps1 = length ps2 ->
  (foldr Qplus 0 (squared_error ps1 ps2)
   == inject_Z (sum_Z (zip_with pixel_squared_error ps1 ps2)))%Q
  /\ length (squared_error ps1 ps2) = (length ps1 * 3)%nat.
Proof.
  intros H1. revert ps2.
  induction H1 as [|p1 ps1 Hp1 _ IH]; intros ps2 H2 Hlen.
  - destruct ps2; [|done]. by split.
  - destruct H2 as [|p2 ps2 Hp2 H2]; [done|].
    destruct (IH ps2 H2) as [IHsum IHlen]; [by injection Hlen|].
    destruct (channels_ok_inv _ Hp1) as (r1 & g1 & b1 & -> & _).
    destruct (channels_ok_inv _ Hp2) as (r2 & g2 & b2 & -> & _).
    unfold squared_error in *. cbn [concat app zip_with foldr length].
    split; [|by rewrite IHlen].
    rewrite IHsum, !squared_channel, sum_Z_cons.
    assert (pixel_squared_error [r1; g1; b1] [r2; g2; b2]
            = (r1 - r2) * (r1 - r2) + (g1 - g2) * (g1 - g2)
              + (b1 - b2) * (b1 - b2)) as ->
      by (unfold pixel_squared_error; cbn; lia).
    rewrite !inject_Z_plus. ring.
Qed.

Lemma pixel_squared_error_bounds (p1 p2 : pixel) :
  channels_ok p1 -> channels_ok p2 ->
  0 <= pixel_squared_error p1 p2 <= 3 * 255 ^ 2.
Proof.
  intros H1 H2.
  destruct (channels_ok_inv _ H1) as (r1 & g1 & b1 & -> & ? & ? & ?).
  destruct (channels_ok_inv _ H2) as (r2 & g2 & b2 & -> & ? & ? & ?).
  assert (Hsq : forall a b, 0 <= a <= 255 -> 0 <= b <= 255 ->
                 0 <= (a - b) * (a - b) <= 65025).
  { intros a b Ha Hb.
    pose proof (Z.square_nonneg (a - b)).
    assert (0 <= (255 - (a - b)) * (255 + (a - b)))
      by (apply Z.mul_nonneg_nonneg; lia).
    lia. }
  pose proof (Hsq r1 r2 ltac:(done) ltac:(done)).
  pose proof (Hsq g1 g2 ltac:(done) ltac:(done)).
  pose proof (Hsq b1 b2 ltac:(done) ltac:(done)).
  unfold pixel_squared_error. cbn. lia.
Qed.

Lemma total_squared_error_bounds (ps1 ps2 : list pixel) :
  Forall channels_ok ps1 -> Forall channels_ok ps2 ->
  length ps1 = length ps2 ->
  0 <= sum_Z (zip_with pixel_squared_error ps1 ps2)
    <= Z.of_nat (length ps1 * 3) * 255 ^ 2.
Proof.
  intros H1. revert ps2.
  induction H1 as [|p1 ps1 Hp1 _ IH]; intros ps2 H2 Hlen.
  - destruct ps2; [|done]. cbn. lia.
  - destruct H2 as [|p2 ps2 Hp2 H2]; [done|].
    specialize (IH ps2 H2 ltac:(by injection Hlen)).
    pose proof (pixel_squared_error_bounds _ _ Hp1 Hp2).
    cbn [zip_with length]. rewrite sum_Z_cons. lia.
Qed.

Lemma zip_with_self_zero (p : pixel) :
  zip_with (fun a b => Z.abs (a - b)) p p = replicate (length p) 0.
Proof.
  induction p as [|c p IH]; [done|].
  cbn [zip_with length replicate]. rewrite IH. f_equal. lia.
Qed.

Lemma existsb_replicate_zero (n : nat) :
  existsb (fun c => 10 <? c) (replicate n 0) = false.
Proof. induction n; [done|]. cbn. done. Qed.

(** An image has no differing pixel against itself. *)
Lemma np_sum_mask_self (img : Image) :
  np_sum_mask (diff_mask (difference img img)) = np_int64 0.
Proof.
  unfold np_sum_mask, diff_mask, difference. f_equal.
  induction (data img) as [|p ps IH]; [done|].
  cbn [zip_with map]. rewrite sum_Z_cons, IH.
  by rewrite zip_with_self_zero, existsb_replicate_zero.
Qed.

Lemma total_squared_error_self (img : Image) : total_squared_error img img = 0.
Proof.
  unfold total_squared_error.
  induction (data img) as [|p ps IH]; [done|].
  cbn [zip_with]. rewrite sum_Z_cons, IH.
  assert (pixel_squared_error p p = 0) as ->; [|done].
  unfold pixel_squared_error. clear.
  induction p as [|c p IHp]; [done|].
  cbn [zip_with]. rewrite sum_Z_cons, IHp. lia.
Qed.

Lemma np_mean_nonempty (xs : list Q) :
  (0 < length xs)%nat ->
  np_mean xs = fin (foldr Qplus 0 xs / inject_Z (Z.of_nat (length xs)))%Q.
Proof. destruct xs; [cbn; lia|done]. Qed.

Lemma same_size (img1 img2 : Image) :
  size_of img1 = size_of img2 ->
  width img1 = width img2 /\ height img1 = height img2.
Proof. unfold size_of. by intros [= -> ->]. Qed.

Lemma nonempty_image_spec (img : Image) :
  nonempty_image img = true -> (0 < width img * height img)%nat.
Proof.
  unfold nonempty_image. intros H. apply andb_prop in H as [Hw Hh].
  apply Nat.ltb_lt in Hw, Hh. nia.
Qed.

(** On well-formed images of one size the similarity is a number, and it
    is one minus the mean squared error over [255 ** 2]. *)
Lemma pixel_metrics_similarity (img1 img2 : Image) :
  valid_image img1 = true ->
  valid_image img2 = true ->
  size_of img1 = size_of img2 ->
  nonempty_image img1 = true ->
  exists q,
    fst (pixel_metrics img1 img2) = fin q /\
    (q == 1 - MSE img1 img2 / inject_Z max_mse)%Q.
Proof.
  intros Hv1 Hv2 Hsize Hne.
  destruct (valid_image_spec _ Hv1) as [Hlen1 Hpx1].
  destruct (valid_image_spec _ Hv2) as [Hlen2 Hpx2].
  destruct (same_size _ _ Hsize) as [Hw Hh].
  pose proof (nonempty_image_spec _ Hne) as Hpos.
  destruct (squared_error_total (data img1) (data img2) Hpx1 Hpx2)
    as [Hsum Hlen]; [lia|].
  unfold pixel_metrics. cbn [fst].
  rewrite np_mean_nonempty by lia.
  cbn [float_div float_sub float_lift2 float_of_int].
  eexists. split; [reflexivity|].
  unfold MSE, total_squared_error.
  rewrite Hsum, Hlen, Hlen1. reflexivity.
Qed.

Lemma MSE_bounds (img1 img2 : Image) :
  valid_image img1 = true ->
  valid_image img2 = true ->
  size_of img1 = size_of img2 ->
  nonempty_image img1 = true ->
  (0 <= MSE img1 img2 / inject_Z max_mse <= 1)%Q.
Proof.
  intros Hv1 Hv2 Hsize Hne.
  destruct (valid_image_spec _ Hv1) as [Hlen1 Hpx1].
  destruct (valid_image_spec _ Hv2) as [Hlen2 Hpx2].
  destruct (same_size _ _ Hsize) as [Hw Hh].
  pose proof (nonempty_image_spec _ Hne) as Hpos.
  pose proof (total_squared_error_bounds _ _ Hpx1 Hpx2 ltac:(lia)) as Hb.
  rewrite Hlen1 in Hb.
  unfold MSE, total_squared_error.
  set (total := sum_Z (zip_with pixel_squared_error (data img1) (data img2)))
    in *.
  set (n := Z.of_nat (width img1 * height img1 * 3)) in *.
  assert (Hn : 0 < n) by lia.
  assert (Hmax : max_mse = 65025) by reflexivity.
  assert (Heq : (inject_Z total / inject_Z n / inject_Z max_mse
                 == inject_Z total / inject_Z (n * max_mse))%Q).
  { rewrite inject_Z_mult. field. split.
    - rewrite Hmax. discriminate.
    - intros Hz. pose proof (inject_Z_pos n Hn) as Hp.
      rewrite Hz in Hp. by apply Qlt_irrefl in Hp. }
  rewrite Heq. apply ratio_bounds; lia.
Qed.

(** C6: on two well-formed RGB images of the same non-empty size, the
    similarity the pixel-diff computation produces is
    [1 - MSE / 255 ** 2], with MSE the mean of the squared differences over
    all pixels and channels, and it lies in [0,1]. *)
Theorem similarity_is_normalized_MSE (img1 img2 : Image) :
  valid_image img1 = true ->
  valid_image img2 = true ->
  size_of img1 = size_of img2 ->
  nonempty_image img1 = true ->
  exists q,
    fst (pixel_metrics img1 img2) = fin q /\
    (q == 1 - MSE img1 img2 / 255 ^ 2)%Q /\
    (0 <= q <= 1)%Q.
Proof.
  intros Hv1 Hv2 Hsize Hne.
  destruct (pixel_metrics_similarity _ _ Hv1 Hv2 Hsize Hne) as (q & Hq & Heq).
  pose proof (MSE_bounds _ _ Hv1 Hv2 Hsize Hne) as Hb.
  exists q. split; [exact Hq|]. split.
  - rewrite Heq. reflexivity.
  - rewrite Heq. lra.
Qed.

Lemma similarity_is_normalized_MSE_witness :
  exists q,
    fst (pixel_metrics checkerboard checkerboard_smudged) = fin q /\
    (q == 1 - MSE checkerboard checkerboard_smudged / 255 ^ 2)%Q /\
    (0 <= q <= 1)%Q.
Proof.
  apply (similarity_is_normalized_MSE checkerboard checkerboard_smudged);
    reflexivity.
Defined.

(** C7: comparing a well-formed, non-empty image with itself gives
    similarity 1 and no differing pixel. *)
Theorem identity_law (img : Image) :
  valid_image img = true ->
  nonempty_image img = true ->
  exists q,
    pixel_metrics img img = (fin q, np_int64 0) /\
    (q == 1)%Q /\
    int_value (snd (pixel_metrics img img)) = 0.
Proof.
  intros Hv Hne.
  destruct (pixel_metrics_similarity img img Hv Hv eq_refl Hne)
    as (q & Hq & Heq).
  exists q.
  assert (Hpm : pixel_metrics img img = (fin q, np_int64 0)).
  { rewrite (surjective_pairing (pixel_metrics img img)), Hq. f_equal.
    unfold pixel_metrics. cbn [snd]. apply np_sum_mask_self. }
  split; [exact Hpm|]. split.
  - rewrite Heq. unfold MSE. rewrite total_squared_error_self.
    unfold Qdiv. rewrite !Qmult_0_l. reflexivity.
  - by rewrite Hpm.
Qed.

Lemma identity_law_witness :
  exists q,
    pixel_metrics checkerboard checkerboard = (fin q, np_int64 0) /\
    (q == 1)%Q.
Proof.
  destruct (identity_law checkerboard eq_refl eq_refl) as (q & Hpm & Hq & _).
  by exists q.
Defined.

(** ** Diff renderer *)

Lemma getpixel_lookup (img : Image) (x y : nat) :
  (x < width img)%nat -> (y < height img)%nat ->
  getpixel img (x, y) = data img !! (y * width img + x)%nat.
Proof.
  intros Hx Hy. unfold getpixel.
  apply Nat.ltb_lt in Hx, Hy. by rewrite Hx, Hy.
Qed.

Lemma index_in_range (w h x y : nat) :
  (x < w)%nat -> (y < h)%nat -> (y * w + x < w * h)%nat.
Proof. intros Hx Hy. nia. Qed.

Lemma putpixel_insert (img : Image) (x y : nat) (value : pixel) :
  (x < width img)%nat -> (y < height img)%nat ->
  length (data img) = (width img * height img)%nat ->
  putpixel img (x, y) value
  = Some {| width := width img; height := height img;
            data := <[(y * width img + x)%nat := value]> (data img) |}.
Proof.
  intros Hx Hy Hlen. unfold putpixel.
  pose proof (index_in_range _ _ _ _ Hx Hy) as Hi. rewrite <- Hlen in Hi.
  apply Nat.ltb_lt in Hx, Hy, Hi. by rewrite Hx, Hy, Hi.
Qed.

Section Renderer.

Context (img1 img2 : Image).
Context (Hlen1 : length (data img1) = (width img1 * height img1)%nat).
Context (Hlen2 : length (data img2) = (width img1 * height img1)%nat).
Context (Hw : width img2 = width img1) (Hh : height img2 = height img1).

Lemma render_body_step (x y : nat) (d : Image) :
  (x < width img1)%nat -> (y < height img1)%nat ->
  rendered_up_to img1 img2 (y * width img1 + x) d ->
  exists d',
    render_body img1 img2 y x d = Some d'
    /\ rendered_up_to img1 img2 (y * width img1 + x + 1) d'.
Proof.
  intros Hx Hy (Hdw & Hdh & Hdlen & Hpre).
  pose proof (index_in_range _ _ _ _ Hx Hy) as Hi.
  destruct (lookup_lt_is_Some_2 (data img1) (y * width img1 + x)) as [p1 Hp1];
    [lia|].
  destruct (lookup_lt_is_Some_2 (data img2) (y * width img1 + x)) as [p2 Hp2];
    [lia|].
  unfold render_body.
  rewrite (getpixel_lookup img1) by done.
  rewrite (getpixel_lookup img2) by lia.
  rewrite Hw, Hp1, Hp2. cbn [mbind option_bind].
  exists {| width := width d; height := height d;
            data := <[(y * width d + x)%nat := shade p1 p2]> (data d) |}.
  split.
  - unfold shade.
    destruct (30 <? channel_distance p1 p2); apply putpixel_insert; lia.
  - repeat split; cbn [width height data]; try done.
    + by rewrite length_insert.
    + intros i Hlt. rewrite Hdw.
      destruct (decide (i = (y * width img1 + x)%nat)) as [->|Hne].
      * rewrite list_lookup_insert_eq by lia.
        cbn [shaded data]. by rewrite lookup_zip_with, Hp1, Hp2.
      * rewrite list_lookup_insert_ne by done. apply Hpre. lia.
Qed.

(** The inner loop over columns [a .. a + n) of row [y]. *)
Lemma render_row (y n a : nat) (d : Image) :
  (y < height img1)%nat -> (a + n <= width img1)%nat ->
  rendered_up_to img1 img2 (y * width img1 + a) d ->
  exists d',
    for_each (seq a n) (render_body img1 img2 y) d = Some d'
    /\ rendered_up_to img1 img2 (y * width img1 + a + n) d'.
Proof.
  intros Hy. revert a d.
  induction n as [|n IH]; intros a d Ha Hinv.
  - exists d. split; [done|]. by rewrite Nat.add_0_r.
  - destruct (render_body_step a y d) as (d1 & Hstep & Hinv1); [lia|done|done|].
    destruct (IH (S a) d1) as (d' & Hrest & Hinv'); [lia| |].
    { by replace (y * width img1 + S a)%nat
        with (y * width img1 + a + 1)%nat by lia. }
    exists d'. split.
    + cbn [seq for_each]. rewrite Hstep. exact Hrest.
    + by replace (y * width img1 + a + S n)%nat
        with (y * width img1 + S a + n)%nat by lia.
Qed.

(** The outer loop over rows [b .. b + m). *)
Lemma render_rows (m b : nat) (d : Image) :
  (b + m <= height img1)%nat ->
  rendered_up_to img1 img2 (b * width img1) d ->
  exists d',
    for_each (seq b m)
      (fun y => for_each (seq 0 (width img1)) (render_body img1 img2 y)) d
    = Some d'
    /\ rendered_up_to img1 img2 ((b + m) * width img1) d'.
Proof.
  revert b d. induction m as [|m IH]; intros b d Hb Hinv.
  - exists d. split; [done|]. by rewrite Nat.add_0_r.
  - destruct (render_row b (width img1) 0 d) as (d1 & Hrow & Hinv1);
      [lia|lia|by rewrite Nat.add_0_r|].
    destruct (IH (S b) d1) as (d' & Hrest & Hinv'); [lia| |].
    { by replace (S b * width img1)%nat
        with (b * width img1 + 0 + width img1)%nat by lia. }
    exists d'. split.
    + cbn [seq for_each]. rewrite Hrow. exact Hrest.
    + by replace ((b + S m) * width img1)%nat
        with ((S b + m) * width img1)%nat by lia.
Qed.

(** The two loops succeed and write the shaded pixel at every position. *)
Lemma render_diff_shaded : render_diff img1 img2 = Some (shaded img1 img2).
Proof.
  unfold render_diff.
  destruct (render_rows (height img1) 0 (Image_new (size_of img1)))
    as (d & Hrun & Hdw & Hdh & Hdlen & Hpix).
  - lia.
  - repeat split; cbn; try done.
    + by rewrite length_replicate.
    + intros i Hi. lia.
  - rewrite Hrun. f_equal.
    destruct d as [dw dh dd]. cbn in Hdw, Hdh, Hdlen, Hpix.
    unfold shaded. subst dw dh. f_equal.
    apply list_eq. intros i.
    destruct (decide (i < width img1 * height img1)%nat) as [Hlt|Hge].
    + apply Hpix. lia.
    + rewrite !lookup_ge_None_2; [done| |lia].
      cbn. rewrite length_zip_with. lia.
Qed.

End Renderer.

Lemma lookup_map {A B : Type} (f : A -> B) (l : list A) (i : nat) :
  map f l !! i = f <$> l !! i.
Proof.
  revert i. induction l as [|a l IH]; intros [|i]; cbn; done.
Qed.

(** [int(c * 0.3)] on a channel value is the integer [3 * c / 10]. *)
Lemma fade_channels (p : pixel) :
  Forall (fun c => 0 <= c <= 255) p -> fade p = map (fun c => 3 * c / 10) p.
Proof.
  unfold fade. induction 1 as [|c p Hc _ IH]; [done|].
  cbn [map]. rewrite IH. f_equal.
  unfold int_of_Q. cbn. rewrite Z.quot_div_nonneg by lia. f_equal. lia.
Qed.

Lemma fade_not_highlight (p : pixel) : channels_ok p -> fade p <> highlight.
Proof.
  intros Hp. destruct (channels_ok_inv _ Hp) as (r & g & b & -> & Hr & _).
  rewrite fade_channels by apply Hp.
  cbn [map]. unfold highlight. intros [= H _ _].
  assert (3 * r / 10 < 77) by (apply Z.div_lt_upper_bound; lia). lia.
Qed.

(** Three channels that differ by more than 30 in total have one channel
    that differs by more than 10. *)
Lemma distance_flags (p1 p2 : pixel) :
  channels_ok p1 -> channels_ok p2 ->
  30 < channel_distance p1 p2 ->
  existsb (fun c => 10 <? c) (zip_with (fun a b => Z.abs (a - b)) p1 p2) = true.
Proof.
  intros H1 H2.
  destruct (channels_ok_inv _ H1) as (r1 & g1 & b1 & -> & _).
  destruct (channels_ok_inv _ H2) as (r2 & g2 & b2 & -> & _).
  unfold channel_distance. cbn. intros Hd.
  destruct (Z.ltb_spec 10 (Z.abs (r1 - r2))); [done|].
  destruct (Z.ltb_spec 10 (Z.abs (g1 - g2))); [done|].
  destruct (Z.ltb_spec 10 (Z.abs (b1 - b2))); [done|]. lia.
Qed.

Lemma mask_at_pixels (img1 img2 : Image) (x y : nat) (p1 p2 : pixel) :
  width img2 = width img1 ->
  data img1 !! (y * width img1 + x)%nat = Some p1 ->
  data img2 !! (y * width img1 + x)%nat = Some p2 ->
  mask_at img1 img2 x y
  = Some (existsb (fun c => 10 <? c)
            (zip_with (fun a b => Z.abs (a - b)) p1 p2)).
Proof.
  intros Hw Hp1 Hp2. unfold mask_at, diff_mask, difference.
  by rewrite lookup_map, lookup_zip_with, Hp1, Hp2.
Qed.

(** C5, as worded, fails: a pixel whose red channel differs by 11 is
    flagged in the diff mask but is drawn faded, not highlighted. *)
Lemma flagged_pixel_not_highlighted :
  valid_image (one_pixel [11; 0; 0]) = true /\
  valid_image (one_pixel black) = true /\
  mask_at (one_pixel [11; 0; 0]) (one_pixel black) 0 0 = Some true /\
  render_diff (one_pixel [11; 0; 0]) (one_pixel black)
  = Some (one_pixel [3; 0; 0]) /\
  ~ highlights_exactly_the_mask (one_pixel [11; 0; 0]) (one_pixel black).
Proof.
  split; [reflexivity|]. split; [reflexivity|]. split; [reflexivity|].
  split; [reflexivity|].
  intros (d & Hd & Hpx).
  assert (Hr : render_diff (one_pixel [11; 0; 0]) (one_pixel black)
               = Some (one_pixel [3; 0; 0])) by reflexivity.
  rewrite Hr in Hd. injection Hd as <-.
  destruct (Hpx 0%nat 0%nat) as [_ Hflag]; [cbn; lia|cbn; lia|].
  specialize (Hflag eq_refl). discriminate Hflag.
Qed.

(** C5, amended: on two well-formed RGB images of one size the renderer
    succeeds with an image of that size.  At every position it highlights
    the pixel exactly when the absolute channel differences add up to more
    than 30, and otherwise writes the first image's pixel with every
    channel scaled by 0.3.  Every highlighted pixel is flagged in the diff
    mask (some channel differs by more than 10), and every unflagged pixel
    is drawn faded. *)
Theorem render_diff_highlights (img1 img2 : Image) :
  valid_image img1 = true ->
  valid_image img2 = true ->
  size_of img1 = size_of img2 ->
  exists diff_img,
    render_diff img1 img2 = Some diff_img /\
    size_of diff_img = size_of img1 /\
    forall x y, (x < width img1)%nat -> (y < height img1)%nat ->
      exists p1 p2 flagged,
        getpixel img1 (x, y) = Some p1 /\
        getpixel img2 (x, y) = Some p2 /\
        mask_at img1 img2 x y = Some flagged /\
        flagged = existsb (fun c => 10 <? c)
                    (zip_with (fun a b => Z.abs (a - b)) p1 p2) /\
        getpixel diff_img (x, y)
        = Some (if 30 <? channel_distance p1 p2 then highlight else fade p1) /\
        fade p1 = map (fun c => 3 * c / 10) p1 /\
        (getpixel diff_img (x, y) = Some highlight
         <-> 30 < channel_distance p1 p2) /\
        (getpixel diff_img (x, y) = Some highlight -> flagged = true) /\
        (flagged = false -> getpixel diff_img (x, y) = Some (fade p1)).
Proof.
  intros Hv1 Hv2 Hsize.
  destruct (valid_image_spec _ Hv1) as [Hlen1 Hpx1].
  destruct (valid_image_spec _ Hv2) as [Hlen2 Hpx2].
  destruct (same_size _ _ Hsize) as [Hw Hh].
  rewrite <- Hw, <- Hh in Hlen2.
  exists (shaded img1 img2).
  split; [by apply render_diff_shaded|]. split; [done|].
  intros x y Hx Hy.
  pose proof (index_in_range _ _ _ _ Hx Hy) as Hi.
  destruct (lookup_lt_is_Some_2 (data img1) (y * width img1 + x)) as [p1 Hp1];
    [lia|].
  destruct (lookup_lt_is_Some_2 (data img2) (y * width img1 + x)) as [p2 Hp2];
    [lia|].
  assert (Hok1 : channels_ok p1).
  { eapply Forall_forall; [exact Hpx1|]. by eapply list_elem_of_lookup_2. }
  assert (Hok2 : channels_ok p2).
  { eapply Forall_forall; [exact Hpx2|]. by eapply list_elem_of_lookup_2. }
  assert (Hout : getpixel (shaded img1 img2) (x, y) = Some (shade p1 p2)).
  { rewrite getpixel_lookup by done.
    cbn [shaded width data]. by rewrite lookup_zip_with, Hp1, Hp2. }
  exists p1, p2, (existsb (fun c => 10 <? c)
                    (zip_with (fun a b => Z.abs (a - b)) p1 p2)).
  split; [by rewrite getpixel_lookup|].
  split; [by rewrite getpixel_lookup, <- Hw by lia|].
  split; [by apply mask_at_pixels|].
  split; [done|]. split; [exact Hout|].
  split; [apply fade_channels, Hok1|].
  rewrite Hout. unfold shade.
  destruct (Z.ltb_spec 30 (channel_distance p1 p2)) as [Hgt|Hle].
  - split; [done|]. split; [intros _; by apply distance_flags|].
    intros Hflag. rewrite distance_flags in Hflag by done. discriminate.
  - assert (Hne : Some (fade p1) <> Some highlight).
    { intros [= Heq]. by apply fade_not_highlight in Heq. }
    split; [split; [done|lia]|]. split; done.
Qed.

Lemma render_diff_highlights_witness :
  exists diff_img,
    render_diff checkerboard checkerboard_smudged = Some diff_img /\
    getpixel diff_img (0%nat, 1%nat) = Some highlight /\
    getpixel diff_img (1%nat, 1%nat) = Some [76; 76; 76].
Proof.
  destruct (render_diff_highlights checkerboard checkerboard_smudged
              eq_refl eq_refl eq_refl) as (d & Hd & _ & _).
  exists d. split; [exact Hd|].
  vm_compute in Hd. injection Hd as <-. split; reflexivity.
Defined.

(** ** Comparisons and the batch auditor *)

Lemma bind_Returned {A B : Type} (m : M A) (k : A -> M B) (w w' : World)
    (b : B) :
  bind m k w = (Returned b, w') ->
  exists a w1, m w = (Returned a, w1) /\ k a w1 = (Returned b, w').
Proof.
  unfold bind. destruct (m w) as [[a|e] w1]; [|done].
  intros H. by exists a, w1.
Qed.

Lemma ret_Returned {A : Type} (a b : A) (w w' : World) :
  ret a w = (Returned b, w') -> a = b /\ w = w'.
Proof. unfold ret. by intros [= -> ->]. Qed.

Ltac bind_inv H :=
  let a := fresh "a" in
  let w1 := fresh "w" in
  let Hm := fresh "Hm" in
  apply bind_Returned in H as (a & w1 & Hm & H).

Lemma override_result_not_ERROR (sa : option Dict) (r : ComparisonResult) :
  r <> ERROR -> override_result sa r <> ERROR.
Proof.
  intros Hr. unfold override_result.
  destruct sa as [sa|]; [|done].
  destruct (dict_truthy sa && dict_contains "recommendation" sa); [|done].
  destruct (sa !! "recommendation") as [v|]; [|done].
  destruct (json_eq_str v "BLOCK"); [done|].
  by destruct (json_eq_str v "FIX").
Qed.

(** What every record built by [compare] carries: the sources it was
    asked about, a total-pixel count of 0, and an outcome that is the
    classification of its own similarity, threshold and judgment. *)
Lemma compare_diff_fields (E : Env) (self : CocoVision)
    (figma_file_key figma_node_id code_url : string)
    (selector : option string) (use_gemini : bool) (w w' : World)
    (d : VisualDiff) :
  compare_diff E self figma_file_key figma_node_id code_url selector
    use_gemini w = (Returned d, w') ->
  total_pixels d = 0 /\
  figma_source d = figma_file_key +:+ ":" +:+ figma_node_id /\
  code_source d = code_url /\
  threshold d = self_threshold self /\
  result d = classify (similarity_score d) (threshold d) (semantic_analysis d).
Proof.
  unfold compare_diff. intros H.
  do 5 bind_inv H.
  destruct a3 as [[similarity pixel_diff] diff_path].
  do 2 bind_inv H.
  apply ret_Returned in H as [<- _]. by cbn.
Qed.

Lemma compare_local_diff_fields (E : Env) (self : CocoVision)
    (figma_image_path code_url : string)
    (selector : option string) (use_gemini : bool) (w w' : World)
    (d : VisualDiff) :
  compare_local_diff E self figma_image_path code_url selector use_gemini w
  = (Returned d, w') ->
  total_pixels d = 0 /\
  figma_source d = figma_image_path /\
  code_source d = code_url /\
  threshold d = self_threshold self /\
  result d = classify (similarity_score d) (threshold d) None.
Proof.
  unfold compare_local_diff. intros H.
  do 4 bind_inv H.
  destruct a2 as [[similarity pixel_diff] diff_path].
  do 2 bind_inv H.
  apply ret_Returned in H as [<- _]. by cbn.
Qed.

(** [compare] returns the record it built, and only if the record could be
    saved. *)
Lemma compare_returns_built (E : Env) (self : CocoVision)
    (figma_file_key figma_node_id code_url : string)
    (selector : option string) (use_gemini : bool) (w w' : World)
    (d : VisualDiff) :
  compare E self figma_file_key figma_node_id code_url selector use_gemini w
  = (Returned d, w') ->
  json_serializable (pixel_diff_count d) = true /\
  exists w1,
    compare_diff E self figma_file_key figma_node_id code_url selector
      use_gemini w = (Returned d, w1).
Proof.
  unfold compare. intros H.
  do 2 bind_inv H. apply ret_Returned in H as [<- _].
  split; [|by exists w0].
  unfold _save_report in Hm0.
  by destruct (json_serializable (pixel_diff_count a)).
Qed.

Lemma compare_local_returns_built (E : Env) (self : CocoVision)
    (figma_image_path code_url : string)
    (selector : option string) (use_gemini : bool) (w w' : World)
    (d : VisualDiff) :
  compare_local E self figma_image_path code_url selector use_gemini w
  = (Returned d, w') ->
  exists w1,
    compare_local_diff E self figma_image_path code_url selector use_gemini w
    = (Returned d, w1).
Proof.
  unfold compare_local. intros H.
  do 2 bind_inv H. apply ret_Returned in H as [<- _]. by exists w0.
Qed.



Lemma or_raise_Returned {A : Type} (e : exn) (o : option A) (a : A)
    (w w' : World) :
  or_raise e o w = (Returned a, w') -> o = Some a /\ w = w'.
Proof.
  destruct o as [x|]; cbn; [|done]. unfold ret. by intros [= -> ->].
Qed.

Lemma classify_not_ERROR (similarity thr : pyfloat) (sa : option Dict) :
  classify similarity thr sa <> ERROR.
Proof. apply override_result_not_ERROR, determine_result_not_ERROR. Qed.

(** The loop appends, request by request, the answer of [compare]. *)
Lemma audit_loop_results (E : Env) (self : CocoVision)
    (requests : list (gmap string string)) (use_gemini : bool) :
  forall (acc results : list VisualDiff) (w w' : World),
    audit_loop E self requests use_gemini acc w = (Returned results, w') ->
    exists new,
      results = acc ++ new /\
      Forall2 answers requests new /\
      Forall (fun d => result d <> ERROR
                       /\ json_serializable (pixel_diff_count d) = true) new.
Proof.
  induction requests as [|comp rest IH]; intros acc results w w' H.
  - apply ret_Returned in H as [<- _]. exists []. by rewrite app_nil_r.
  - cbn [audit_loop] in H. do 4 bind_inv H.
    apply or_raise_Returned in Hm as [Hfile <-].
    apply or_raise_Returned in Hm0 as [Hnode <-].
    apply or_raise_Returned in Hm1 as [Hurl <-].
    apply compare_returns_built in Hm2 as [Hser [wb Hbuilt]].
    apply compare_diff_fields in Hbuilt as (_ & Hfs & Hcs & _ & Hres).
    apply IH in H as (new & -> & Hans & Hne).
    exists (a2 :: new). split; [by rewrite <- app_assoc|]. split.
    + constructor; [|done]. by exists a, a0, a1.
    + constructor; [|done]. split; [|done].
      rewrite Hres. apply classify_not_ERROR.
Qed.

Lemma count_result_cons (outcome : ComparisonResult) (d : VisualDiff)
    (results : list VisualDiff) :
  count_result outcome (d :: results)
  = (if ComparisonResult_eqb (result d) outcome then 1 else 0)
    + count_result outcome results.
Proof.
  unfold count_result. cbn [List.filter].
  by destruct (ComparisonResult_eqb (result d) outcome).
Qed.

(** Without ERROR results the three counters partition the results. *)
Lemma counts_partition (results : list VisualDiff) :
  Forall (fun d => result d <> ERROR) results ->
  count_result PASS results + count_result FAIL results
  + count_result WARNING results = Z.of_nat (length results).
Proof.
  induction 1 as [|d results Hd _ IH]; [done|].
  rewrite !count_result_cons. cbn [length].
  destruct (result d); cbn; try done; lia.
Qed.

(** C8: a report the batch auditor produces for N requests holds exactly N
    results, the i-th answering the i-th request; its total is N and its
    passed, failed and warning counts add up to the total. *)
Theorem audit_batch_report (E : Env) (self : CocoVision)
    (requests : list (gmap string string)) (use_gemini : bool)
    (w w' : World) (report : VisionReport) :
  audit_batch E self requests use_gemini w = (Returned report, w') ->
  length (comparisons report) = length requests /\
  Forall2 answers requests (comparisons report) /\
  total_comparisons report = Z.of_nat (length requests) /\
  passed report + failed report + warnings report = total_comparisons report.
Proof.
  unfold audit_batch. intros H.
  do 4 bind_inv H. apply ret_Returned in H as [<- _].
  apply audit_loop_results in Hm as (new & -> & Hans & Hne).
  cbn [app] in *. cbn [comparisons total_comparisons passed failed warnings].
  pose proof (Forall2_length _ _ _ Hans) as Hlen.
  repeat split.
  - done.
  - exact Hans.
  - by rewrite Hlen.
  - apply counts_partition. eapply Forall_impl; [exact Hne|]. by intros d [? _].
Qed.

Lemma audit_batch_report_witness :
  exists report w',
    audit_batch capture_fails_env default_vision
      [sample_request "1:23"; sample_request "4:56"] true fresh_world
    = (Returned report, w') /\
    length (comparisons report) = 2%nat /\
    total_comparisons report = 2 /\
    passed report + failed report + warnings report = 2.
Proof.
  pose (run := audit_batch capture_fails_env default_vision
                 [sample_request "1:23"; sample_request "4:56"] true
                 fresh_world).
  assert (Hrun : audit_batch capture_fails_env default_vision
                   [sample_request "1:23"; sample_request "4:56"] true
                   fresh_world = run) by reflexivity.
  vm_compute in run. subst run.
  eexists _, _. split; [exact Hrun|].
  destruct (audit_batch_report _ _ _ _ _ _ _ Hrun) as (Hlen & _ & Htot & Hsum).
  split; [exact Hlen|]. split; [exact Htot|]. by rewrite Hsum, Htot.
Defined.

(** C10: on an empty list of requests the batch auditor returns a report
    (the mean is guarded by [if results], so nothing is divided by zero)
    with total 0, all three counts 0, average similarity 0 and no
    results. *)
Theorem audit_batch_empty (E : Env) (self : CocoVision) (use_gemini : bool)
    (w : World) :
  exists report w',
    audit_batch E self [] use_gemini w = (Returned report, w') /\
    total_comparisons report = 0 /\
    passed report = 0 /\
    failed report = 0 /\
    warnings report = 0 /\
    average_similarity report = fin 0 /\
    comparisons report = [].
Proof.
  unfold audit_batch, bind, time_now, datetime_now_isoformat,
    _save_full_report, bind, ret.
  cbn. eexists _, _. split; [reflexivity|]. by cbn.
Qed.

(** ** When a comparison returns *)

(** With PIL and numpy present and both files decoded to well-formed
    images of one size, the comparator returns the pixel metrics and
    writes the shaded image. *)
Lemma ImageComparator_compare_same_size (E : Env)
    (image1_path image2_path output_diff_path : string)
    (img1 img2 : Image) (w : World) :
  has_pil E = true ->
  files w !! image1_path = Some img1 ->
  files w !! image2_path = Some img2 ->
  valid_image img1 = true ->
  valid_image img2 = true ->
  size_of img1 = size_of img2 ->
  str_truthy output_diff_path = true ->
  ImageComparator_compare E image1_path image2_path (Some output_diff_path) w
  = (Returned (fst (pixel_metrics img1 img2), snd (pixel_metrics img1 img2),
               Some output_diff_path),
     write_file output_diff_path (shaded img1 img2) w).
Proof.
  intros Hpil Hf1 Hf2 Hv1 Hv2 Hsize Hout.
  destruct (valid_image_spec _ Hv1) as [Hlen1 _].
  destruct (valid_image_spec _ Hv2) as [Hlen2 _].
  destruct (same_size _ _ Hsize) as [Hw Hh].
  rewrite <- Hw, <- Hh in Hlen2.
  assert (Hsame : size_eqb (size_of img1) (size_of img2) = true).
  { rewrite <- Hsize. unfold size_eqb. by rewrite !Nat.eqb_refl. }
  unfold ImageComparator_compare, bind, Image_open, Image_save, or_raise, ret.
  rewrite Hpil. cbn [negb]. cbv beta. rewrite Hf1, Hf2, Hsame. cbn [negb].
  destruct (pixel_metrics img1 img2) as [similarity pixel_diff_count].
  rewrite Hout, render_diff_shaded by done. reflexivity.
Qed.

(** A count that comes out of numpy cannot be saved: on the sample run,
    where both acquisitions succeed, [compare] builds its record and then
    raises in [_save_report]. *)
Lemma compare_raises_on_numpy_count :
  fst (compare sample_env default_vision "FILEKEY" "1:23"
         "http://localhost:3000" None true fresh_world) = Raised TypeError.
Proof. vm_compute. reflexivity. Qed.

(** On an image without pixels [np.mean] has nothing to average. *)
Lemma pixel_metrics_empty :
  fst (pixel_metrics (Image_new (0%nat, 0%nat)) (Image_new (0%nat, 0%nat)))
  = nan.
Proof. reflexivity. Qed.




(** * Further properties of the code *)

(** ** Classification *)

Lemma json_eq_str_true (v : json) (s : string) :
  json_eq_str v s = true <-> v = JStr s.
Proof.
  destruct v; cbn; try (split; [discriminate|discriminate]).
  rewrite String.eqb_eq. split; [by intros ->|by intros [= ->]].
Qed.

(** X1: a BLOCK recommendation forces FAIL, whatever the similarity and
    the threshold are (also when one of them is not a number). *)
Theorem block_forces_FAIL (similarity thr : pyfloat) (sa : Dict) :
  recommends sa "BLOCK" -> classify similarity thr (Some sa) = FAIL.
Proof. intros H. unfold classify. by apply override_BLOCK. Qed.

Lemma block_forces_FAIL_witness :
  classify (fin 1) (fin 0.95) None = PASS /\
  classify (fin 1) (fin 0.95) (Some block_judgment) = FAIL.
Proof.
  split; [reflexivity|].
  apply (block_forces_FAIL (fin 1) (fin 0.95) block_judgment). reflexivity.
Defined.

(** X2: only the strings BLOCK and FIX override.  With no analysis, an
    analysis without a recommendation, or any other recommendation (SHIP,
    a misspelling, a value that is not a string), the outcome is the base
    rule's. *)
Theorem other_recommendations_keep_base (similarity thr : pyfloat)
    (semantic_analysis : option Dict) :
  (forall sa r,
     semantic_analysis = Some sa -> sa !! "recommendation" = Some r ->
     r <> JStr "BLOCK" /\ r <> JStr "FIX") ->
  classify similarity thr semantic_analysis = determine_result similarity thr.
Proof.
  intros H. unfold classify, override_result.
  destruct semantic_analysis as [sa|]; [|done].
  destruct (dict_truthy sa && dict_contains "recommendation" sa); [|done].
  destruct (sa !! "recommendation") as [r|] eqn:Hr; [|done].
  destruct (H sa r eq_refl Hr) as [Hb Hf].
  destruct (json_eq_str r "BLOCK") eqn:Eb.
  { by apply json_eq_str_true in Eb. }
  destruct (json_eq_str r "FIX") eqn:Ef; [|done].
  by apply json_eq_str_true in Ef.
Qed.

Lemma other_recommendations_keep_base_witness :
  classify (fin 0.5) (fin 0.95) (Some ship_judgment) = FAIL /\
  classify (fin 0.97) (fin 0.95) (Some error_judgment) = PASS.
Proof.
  split.
  - rewrite (other_recommendations_keep_base (fin 0.5) (fin 0.95)
               (Some ship_judgment)); [reflexivity|].
    intros sa r [= <-] Hr. vm_compute in Hr. injection Hr as <-. by split.
  - rewrite (other_recommendations_keep_base (fin 0.97) (fin 0.95)
               (Some error_judgment)); [reflexivity|].
    intros sa r [= <-] Hr. vm_compute in Hr. discriminate Hr.
Defined.

(** X3: the base rule is monotone: a higher similarity never gives a more
    severe outcome, and a lower threshold never does either. *)
Theorem determine_result_monotone (s1 s2 t1 t2 : Q) :
  (s1 <= s2)%Q -> (t2 <= t1)%Q ->
  (severity (determine_result (fin s2) (fin t2))
   <= severity (determine_result (fin s1) (fin t1)))%nat.
Proof.
  intros Hs Ht.
  destruct (determine_result_cases s1 t1) as [[H1 ->]|[(H1 & H1' & ->)|[H1 ->]]];
  destruct (determine_result_cases s2 t2) as [[H2 ->]|[(H2 & H2' & ->)|[H2 ->]]];
    cbn; try lia; lra.
Qed.

Lemma determine_result_monotone_witness :
  (severity (determine_result (fin 0.96) (fin 0.9))
   <= severity (determine_result (fin 0.9) (fin 0.95)))%nat.
Proof.
  apply (determine_result_monotone 0.9 0.96 0.95 0.9); vm_compute; discriminate.
Defined.



(** ** Pixel diff engine, continued *)

Lemma zip_with_comm {A B : Type} (f : A -> A -> B) (l1 l2 : list A) :
  (forall x y, f x y = f y x) -> zip_with f l1 l2 = zip_with f l2 l1.
Proof.
  intros Hf. revert l2.
  induction l1 as [|x l1 IH]; intros [|y l2]; cbn; try done.
  by rewrite Hf, IH.
Qed.

Lemma difference_comm (img1 img2 : Image) :
  difference img1 img2 = difference img2 img1.
Proof.
  unfold difference. apply zip_with_comm. intros p1 p2.
  apply zip_with_comm. intros a b. lia.
Qed.

Lemma squared_error_comm (l1 l2 : list Z) :
  (foldr Qplus 0
     (zip_with (fun a b => (inject_Z a - inject_Z b) ^ 2) l1 l2)
   == foldr Qplus 0
        (zip_with (fun a b => (inject_Z a - inject_Z b) ^ 2) l2 l1))%Q
  /\ length (zip_with (fun a b => (inject_Z a - inject_Z b) ^ 2)%Q l1 l2)
     = length (zip_with (fun a b => (inject_Z a - inject_Z b) ^ 2)%Q l2 l1).
Proof.
  revert l2. induction l1 as [|x l1 IH]; intros [|y l2]; cbn [zip_with foldr length];
    try done.
  destruct (IH l2) as [IHs IHl]. split; [|by rewrite IHl].
  rewrite IHs, !Qsquare. ring.
Qed.

(** X5: the comparison is symmetric: swapping the two images changes
    neither the similarity nor the number of differing pixels. *)
Theorem pixel_metrics_symmetric (img1 img2 : Image) :
  float_eq (fst (pixel_metrics img1 img2)) (fst (pixel_metrics img2 img1)) /\
  snd (pixel_metrics img1 img2) = snd (pixel_metrics img2 img1).
Proof.
  unfold pixel_metrics. cbn [fst snd]. split; [|by rewrite difference_comm].
  unfold squared_error.
  destruct (squared_error_comm (concat (data img1)) (concat (data img2)))
    as [Hsum Hlen].
  destruct (zip_with _ (concat (data img1)) (concat (data img2)))
    as [|x xs] eqn:E1;
  destruct (zip_with _ (concat (data img2)) (concat (data img1)))
    as [|y ys] eqn:E2; try discriminate Hlen; [done|].
  cbn [np_mean float_div float_sub float_lift2 float_of_int float_eq].
  rewrite Hsum, Hlen. reflexivity.
Qed.

Lemma np_sum_mask_bounds (mask : list bool) :
  exists n, np_sum_mask mask = np_int64 n /\ 0 <= n <= Z.of_nat (length mask).
Proof.
  unfold np_sum_mask. eexists. split; [reflexivity|].
  induction mask as [|b mask IH]; [done|].
  cbn [map length]. rewrite sum_Z_cons. destruct b; lia.
Qed.

(** X6: the number of differing pixels is between 0 and the number of
    pixels of the image. *)
Theorem pixel_diff_count_bounds (img1 img2 : Image) :
  valid_image img1 = true ->
  0 <= int_value (snd (pixel_metrics img1 img2))
    <= Z.of_nat (width img1 * height img1).
Proof.
  intros Hv. destruct (valid_image_spec _ Hv) as [Hlen _].
  unfold pixel_metrics. cbn [snd].
  destruct (np_sum_mask_bounds (diff_mask (difference img1 img2)))
    as (n & -> & Hn).
  cbn [int_value]. unfold diff_mask, difference in Hn.
  rewrite length_map, length_zip_with in Hn. lia.
Qed.

Lemma pixel_diff_count_bounds_witness :
  0 <= int_value (snd (pixel_metrics checkerboard checkerboard_smudged)) <= 4.
Proof.
  apply (pixel_diff_count_bounds checkerboard checkerboard_smudged).
  reflexivity.
Defined.

Lemma pixel_squared_error_zero (p1 p2 : pixel) :
  channels_ok p1 -> channels_ok p2 ->
  pixel_squared_error p1 p2 = 0 -> p1 = p2.
Proof.
  intros H1 H2.
  destruct (channels_ok_inv _ H1) as (r1 & g1 & b1 & -> & _).
  destruct (channels_ok_inv _ H2) as (r2 & g2 & b2 & -> & _).
  unfold pixel_squared_error. cbn. intros H.
  pose proof (Z.square_nonneg (r1 - r2)).
  pose proof (Z.square_nonneg (g1 - g2)).
  pose proof (Z.square_nonneg (b1 - b2)).
  assert ((r1 - r2) * (r1 - r2) = 0) as Hr by lia.
  assert ((g1 - g2) * (g1 - g2) = 0) as Hg by lia.
  assert ((b1 - b2) * (b1 - b2) = 0) as Hb by lia.
  apply Z.mul_eq_0 in Hr, Hg, Hb.
  f_equal; [lia|f_equal; [lia|f_equal; lia]].
Qed.

Lemma total_squared_error_zero (ps1 ps2 : list pixel) :
  Forall channels_ok ps1 -> Forall channels_ok ps2 ->
  length ps1 = length ps2 ->
  sum_Z (zip_with pixel_squared_error ps1 ps2) = 0 -> ps1 = ps2.
Proof.
  intros H1. revert ps2.
  induction H1 as [|p1 ps1 Hp1 Hps1 IH]; intros ps2 H2 Hlen Hsum.
  - by destruct ps2.
  - destruct H2 as [|p2 ps2 Hp2 H2]; [done|].
    cbn [zip_with] in Hsum. rewrite sum_Z_cons in Hsum.
    pose proof (pixel_squared_error_bounds _ _ Hp1 Hp2) as [Hp _].
    pose proof (total_squared_error_bounds ps1 ps2 Hps1 H2
                  ltac:(by injection Hlen)) as [Ht _].
    f_equal.
    + apply pixel_squared_error_zero; [done|done|lia].
    + apply IH; [done|by injection Hlen|lia].
Qed.

Lemma over_max_mse_zero (m : Q) : (m / 65025 == 0)%Q <-> (m == 0)%Q.
Proof.
  split; intros H.
  - assert (Hm : (m == 65025 * (m / 65025))%Q)
      by (symmetry; apply Qmult_div_r; discriminate).
    rewrite Hm, H. reflexivity.
  - rewrite H. reflexivity.
Qed.

(** X7: on well-formed images of one non-empty size the similarity is 1
    only for identical pixel data: any differing channel, however small,
    brings it below 1. *)
Theorem similarity_one_iff_identical (img1 img2 : Image) :
  valid_image img1 = true ->
  valid_image img2 = true ->
  size_of img1 = size_of img2 ->
  nonempty_image img1 = true ->
  exists q,
    fst (pixel_metrics img1 img2) = fin q /\
    ((q == 1)%Q <-> data img1 = data img2).
Proof.
  intros Hv1 Hv2 Hsize Hne.
  destruct (pixel_metrics_similarity _ _ Hv1 Hv2 Hsize Hne) as (q & Hq & Heq).
  destruct (valid_image_spec _ Hv1) as [Hlen1 Hpx1].
  destruct (valid_image_spec _ Hv2) as [Hlen2 Hpx2].
  destruct (same_size _ _ Hsize) as [Hw Hh].
  pose proof (nonempty_image_spec _ Hne) as Hpos.
  exists q. split; [exact Hq|].
  assert (Hn : 0 < Z.of_nat (width img1 * height img1 * 3)) by lia.
  pose proof (ratio_zero_iff (total_squared_error img1 img2) _ Hn) as Hz.
  fold (MSE img1 img2) in Hz.
  change (inject_Z max_mse) with 65025%Q in Heq.
  split.
  - intros H1.
    assert (Hmse : (MSE img1 img2 == 0)%Q) by (apply over_max_mse_zero; lra).
    apply Hz in Hmse.
    apply total_squared_error_zero; [done|done|lia|exact Hmse].
  - intros Hdata.
    assert (Hmse : (MSE img1 img2 == 0)%Q).
    { apply Hz. unfold total_squared_error. rewrite <- Hdata.
      apply (total_squared_error_self img1). }
    apply over_max_mse_zero in Hmse. lra.
Qed.

Lemma similarity_one_iff_identical_witness :
  exists q,
    fst (pixel_metrics checkerboard checkerboard_smudged) = fin q /\
    ~ (q == 1)%Q.
Proof.
  destruct (similarity_one_iff_identical checkerboard checkerboard_smudged
              eq_refl eq_refl eq_refl eq_refl) as (q & Hq & Hiff).
  exists q. split; [exact Hq|].
  intros H1. apply Hiff in H1. discriminate H1.
Defined.

(** ** Diff renderer, continued *)

Lemma channel_distance_self (p : pixel) : channel_distance p p = 0.
Proof.
  unfold channel_distance. rewrite zip_with_self_zero.
  induction (length p) as [|n IH]; [done|].
  cbn [replicate]. by rewrite sum_Z_cons, IH.
Qed.

(** X8: the diff image of a well-formed image against itself highlights
    nothing: it is the image with every channel scaled by 0.3. *)
Theorem render_diff_self (img : Image) :
  valid_image img = true ->
  render_diff img img = Some (faded img) /\
  forall xy, getpixel (faded img) xy <> Some highlight.
Proof.
  intros Hv. destruct (valid_image_spec _ Hv) as [Hlen Hpx].
  assert (Hdata : zip_with shade (data img) (data img) = map fade (data img)).
  { clear. induction (data img) as [|p ps IH]; [done|].
    cbn [zip_with map]. rewrite IH. f_equal.
    unfold shade. by rewrite channel_distance_self. }
  split.
  - rewrite render_diff_shaded by done. unfold shaded, faded. by rewrite Hdata.
  - intros [x y] Hget. unfold getpixel, faded in Hget. cbn [width height data] in Hget.
    destruct ((x <? width img)%nat && (y <? height img)%nat); [|done].
    rewrite lookup_map in Hget.
    destruct (data img !! (y * width img + x)%nat) as [p|] eqn:Hp; [|done].
    cbn in Hget. injection Hget as Hget.
    apply fade_not_highlight in Hget; [done|].
    eapply Forall_forall; [exact Hpx|]. by eapply list_elem_of_lookup_2.
Qed.

Lemma render_diff_self_witness :
  render_diff checkerboard checkerboard
  = Some {| width := 2; height := 2;
            data := [[76; 76; 76]; [0; 0; 0]; [0; 0; 0]; [76; 76; 76]] |}.
Proof.
  rewrite (proj1 (render_diff_self checkerboard eq_refl)). reflexivity.
Defined.

(** ** Hash comparison, continued *)

Lemma differing_bits_comm (h1 h2 : list bool) :
  zip_with (fun a b : bool => if xorb a b then 1 else 0) h1 h2
  = zip_with (fun a b : bool => if xorb a b then 1 else 0) h2 h1.
Proof. apply zip_with_comm. intros a b. by rewrite xorb_comm. Qed.

Lemma hash_sub_comm (h1 h2 : list bool) : hash_sub h1 h2 = hash_sub h2 h1.
Proof.
  unfold hash_sub. rewrite (Nat.eqb_sym (length h1)), differing_bits_comm.
  done.
Qed.

(** X9: comparing two printed hashes is symmetric, with the hashing
    backend and without it: both orders give the same number or both
    raise. *)
Theorem compare_hashes_symmetric (has_imagehash : bool) (hash1 hash2 : string) :
  printed_hash hash1 = true -> printed_hash hash2 = true ->
  compare_hashes has_imagehash hash1 hash2
  = compare_hashes has_imagehash hash2 hash1.
Proof.
  intros _ _. unfold compare_hashes.
  destruct has_imagehash; cbn [negb].
  - destruct (hex_to_hash hash1) as [h1|] eqn:E1;
      destruct (hex_to_hash hash2) as [h2|] eqn:E2; cbn; try done.
    rewrite (hash_sub_comm h2 h1).
    destruct (hash_sub h1 h2) as [d|] eqn:Ed; cbn; [|done].
    unfold hash_sub in Ed.
    destruct (Nat.eqb_spec (length h1) (length h2)) as [Hlen|]; [|done].
    apply hex_to_hash_length in E1 as [E1 _], E2 as [E2 _].
    by replace (String.length hash2) with (String.length hash1) by lia.
  - by rewrite (String.eqb_sym hash1 hash2).
Qed.

Lemma compare_hashes_symmetric_witness :
  compare_hashes true "8f373714acfcf4d0" "8f373714acfcf4d1"
  = compare_hashes true "8f373714acfcf4d1" "8f373714acfcf4d0".
Proof.
  apply (compare_hashes_symmetric true "8f373714acfcf4d0" "8f373714acfcf4d1");
    reflexivity.
Defined.

(** X10: printed hashes of different sizes cannot be subtracted: with the
    hashing backend the comparison raises, while without it the same call
    answers 0. *)
Theorem compare_hashes_size_mismatch (hash1 hash2 : string) :
  printed_hash hash1 = true -> printed_hash hash2 = true ->
  String.length hash1 <> String.length hash2 ->
  compare_hashes true hash1 hash2 = None /\
  compare_hashes false hash1 hash2 = Some (fin 0).
Proof.
  intros Hp1 Hp2 Hlen. unfold printed_hash in Hp1, Hp2. split.
  - unfold compare_hashes. cbn [negb].
    destruct (hex_to_hash hash1) as [h1|] eqn:E1; [|done].
    destruct (hex_to_hash hash2) as [h2|] eqn:E2; [|done].
    apply hex_to_hash_length in E1 as [E1 _], E2 as [E2 _].
    cbn. unfold hash_sub.
    destruct (Nat.eqb_spec (length h1) (length h2)) as [Heq|]; [lia|done].
  - unfold compare_hashes. cbn [negb].
    destruct (String.eqb_spec hash1 hash2) as [->|]; [done|done].
Qed.

Lemma compare_hashes_size_mismatch_witness :
  compare_hashes true "8f373714acfcf4d0" "8f37" = None /\
  compare_hashes false "8f373714acfcf4d0" "8f37" = Some (fin 0).
Proof.
  apply (compare_hashes_size_mismatch "8f373714acfcf4d0" "8f37");
    [reflexivity|reflexivity|cbn; lia].
Defined.

(** ** The comparator on files *)

(** X11: the comparator reads no clock and saves no report; it leaves the
    files alone except for the diff image it was asked to write, and it
    names a diff image only when it wrote one. *)
Theorem ImageComparator_compare_frame (E : Env)
    (image1_path image2_path : string) (output_diff_path : option string)
    (w w' : World) (r : outcome (pyfloat * pyint * option string)) :
  ImageComparator_compare E image1_path image2_path output_diff_path w
  = (r, w') ->
  clock_reads w' = clock_reads w /\
  saved_reports w' = saved_reports w /\
  saved_audits w' = saved_audits w /\
  (files w' = files w /\
   (forall similarity count path,
      r = Returned (similarity, count, Some path) -> False)
   \/ exists path diff_img similarity count,
        output_diff_path = Some path /\
        r = Returned (similarity, count, Some path) /\
        files w' = <[path := diff_img]> (files w)).
Proof.
  unfold ImageComparator_compare, bind, Image_open, Image_save, or_raise,
    ret, raise.
  destruct (has_pil E); cbn [negb].
  2: { intros [= <- <-]. repeat split; try done. left. by split. }
  destruct (files w !! image1_path) as [img1|].
  2: { intros [= <- <-]. repeat split; try done. left. by split. }
  destruct (files w !! image2_path) as [img2|].
  2: { intros [= <- <-]. repeat split; try done. left. by split. }
  destruct (pixel_metrics img1 _) as [similarity count].
  destruct output_diff_path as [path|].
  2: { intros [= <- <-]. repeat split; try done. left. by split. }
  destruct (str_truthy path).
  2: { intros [= <- <-]. repeat split; try done. left. by split. }
  destruct (render_diff img1 _) as [diff_img|].
  2: { intros [= <- <-]. repeat split; try done. left. by split. }
  intros [= <- <-]. repeat split; try done.
  right. by exists path, diff_img, similarity, count.
Qed.

Lemma ImageComparator_compare_frame_witness :
  exists r w',
    ImageComparator_compare sample_env "a.png" "b.png" (Some "d.png")
      (write_file "a.png" checkerboard
         (write_file "b.png" checkerboard_smudged fresh_world)) = (r, w') /\
    clock_reads w' = 0%nat /\
    files w' !! "a.png" = Some checkerboard.
Proof.
  pose (run := ImageComparator_compare sample_env "a.png" "b.png"
                 (Some "d.png")
                 (write_file "a.png" checkerboard
                    (write_file "b.png" checkerboard_smudged fresh_world))).
  assert (Hrun : ImageComparator_compare sample_env "a.png" "b.png"
                   (Some "d.png")
                   (write_file "a.png" checkerboard
                      (write_file "b.png" checkerboard_smudged fresh_world))
                 = run) by reflexivity.
  vm_compute in run. subst run.
  eexists _, _. split; [exact Hrun|].
  destruct (ImageComparator_compare_frame _ _ _ _ _ _ _ Hrun)
    as (Hclock & _ & _ & _).
  split; [exact Hclock|]. reflexivity.
Defined.

(** The comparator in general: the second image is brought to the size of
    the first, never the other way round. *)
Lemma ImageComparator_compare_normalized (E : Env)
    (image1_path image2_path output_diff_path : string)
    (img1 img2 : Image) (w : World) :
  has_pil E = true ->
  files w !! image1_path = Some img1 ->
  files w !! image2_path = Some img2 ->
  valid_image img1 = true ->
  valid_image (normalized E img1 img2) = true ->
  str_truthy output_diff_path = true ->
  ImageComparator_compare E image1_path image2_path (Some output_diff_path) w
  = (Returned (fst (pixel_metrics img1 (normalized E img1 img2)),
               snd (pixel_metrics img1 (normalized E img1 img2)),
               Some output_diff_path),
     write_file output_diff_path (shaded img1 (normalized E img1 img2)) w).
Proof.
  intros Hpil Hf1 Hf2 Hv1 Hv2 Hout.
  assert (Hsize : size_of (normalized E img1 img2) = size_of img1).
  { unfold normalized.
    destruct (size_eqb (size_of img1) (size_of img2)) eqn:Hs; cbn [negb].
    - unfold size_eqb in Hs. apply andb_prop in Hs as [Hw Hh].
      apply Nat.eqb_eq in Hw, Hh. unfold size_of in *. cbn in Hw, Hh.
      by rewrite Hw, Hh.
    - done. }
  destruct (valid_image_spec _ Hv1) as [Hlen1 _].
  destruct (valid_image_spec _ Hv2) as [Hlen2 _].
  destruct (same_size _ _ Hsize) as [Hw Hh].
  rewrite Hw, Hh in Hlen2.
  unfold ImageComparator_compare, bind, Image_open, Image_save, or_raise, ret.
  rewrite Hpil. cbn [negb]. cbv beta. rewrite Hf1, Hf2.
  fold (normalized E img1 img2).
  destruct (pixel_metrics img1 (normalized E img1 img2))
    as [similarity pixel_diff_count].
  rewrite Hout, render_diff_shaded by done. reflexivity.
Qed.

(** X12: when the two files differ in size, the second image is resampled
    to the size of the first and the first is used as it is: the metrics
    are those of the first image against the resampled second, and the
    diff image written has the size of the first. *)
Theorem comparator_resizes_second (E : Env)
    (image1_path image2_path output_diff_path : string)
    (img1 img2 : Image) (w : World) :
  has_pil E = true ->
  files w !! image1_path = Some img1 ->
  files w !! image2_path = Some img2 ->
  size_of img1 <> size_of img2 ->
  valid_image img1 = true ->
  valid_image (resize E img2 (size_of img1)) = true ->
  str_truthy output_diff_path = true ->
  exists diff_img,
    ImageComparator_compare E image1_path image2_path (Some output_diff_path) w
    = (Returned (fst (pixel_metrics img1 (resize E img2 (size_of img1))),
                 snd (pixel_metrics img1 (resize E img2 (size_of img1))),
                 Some output_diff_path),
       write_file output_diff_path diff_img w) /\
    size_of diff_img = size_of img1 /\
    render_diff img1 (resize E img2 (size_of img1)) = Some diff_img.
Proof.
  intros Hpil Hf1 Hf2 Hsize Hv1 Hv2 Hout.
  assert (Hnorm : normalized E img1 img2 = resize E img2 (size_of img1)).
  { unfold normalized.
    destruct (size_eqb (size_of img1) (size_of img2)) eqn:Hs; [|done].
    exfalso. apply Hsize. unfold size_eqb in Hs.
    apply andb_prop in Hs as [Hw Hh]. apply Nat.eqb_eq in Hw, Hh.
    unfold size_of in *. cbn in Hw, Hh. by rewrite Hw, Hh. }
  exists (shaded img1 (resize E img2 (size_of img1))).
  split; [|split; [done|]].
  - rewrite <- Hnorm. apply ImageComparator_compare_normalized; try done.
    by rewrite Hnorm.
  - destruct (valid_image_spec _ Hv1) as [Hlen1 _].
    destruct (valid_image_spec _ Hv2) as [Hlen2 _].
    apply render_diff_shaded; done.
Qed.

Lemma comparator_resizes_second_witness :
  exists diff_img w',
    ImageComparator_compare wide_capture_env "a.png" "b.png" (Some "d.png")
      (write_file "a.png" checkerboard
         (write_file "b.png"
            {| width := 3; height := 1; data := [white; white; white] |}
            fresh_world))
    = (Returned (fst (pixel_metrics checkerboard
                        (resize wide_capture_env
                           {| width := 3; height := 1;
                              data := [white; white; white] |}
                           (2%nat, 2%nat))),
                 np_int64 2, Some "d.png"), w') /\
    size_of diff_img = (2%nat, 2%nat) /\
    files w' !! "d.png" = Some diff_img.
Proof.
  destruct (comparator_resizes_second wide_capture_env "a.png" "b.png" "d.png"
              checkerboard
              {| width := 3; height := 1; data := [white; white; white] |}
              (write_file "a.png" checkerboard
                 (write_file "b.png"
                    {| width := 3; height := 1; data := [white; white; white] |}
                    fresh_world)))
    as (diff_img & Hrun & Hsz & _); try reflexivity.
  { cbn. intros [= ]. }
  eexists diff_img, _. split; [exact Hrun|]. split; [exact Hsz|].
  cbn [write_file files]. by rewrite lookup_insert_eq.
Defined.

(** ** Comparisons, continued *)

Lemma reports_path_truthy (name : string) : str_truthy (reports_path name) = true.
Proof. reflexivity. Qed.

Lemma try_export_frame (E : Env) (file_key node_id output_path : string)
    (w w' : World) (a : option string) :
  try_except (export_frame E file_key node_id output_path) w = (Returned a, w') ->
  clock_reads w' = clock_reads w /\
  ((figma_image E file_key node_id = None /\ a = None)
   \/ (is_Some (figma_image E file_key node_id) /\ a = Some output_path)).
Proof.
  unfold try_except, export_frame.
  destruct (figma_image E file_key node_id); intros [= <- <-];
    (split; [done|]); [right|left]; eauto.
Qed.

Lemma try_capture (E : Env) (url : string) (selector : option string)
    (output_path : string) (w w' : World) (a : option string) :
  try_except (capture E url selector output_path) w = (Returned a, w') ->
  clock_reads w' = clock_reads w /\
  ((screenshot E url selector = None /\ a = None)
   \/ (is_Some (screenshot E url selector) /\ a = Some output_path)).
Proof.
  unfold try_except, capture.
  destruct (screenshot E url selector); intros [= <- <-];
    (split; [done|]); [right|left]; eauto.
Qed.

Lemma pixel_metrics_count_numpy (img1 img2 : Image) :
  json_serializable (snd (pixel_metrics img1 img2)) = false.
Proof. reflexivity. Qed.

(** What the comparator can return: the fallback triple when PIL and
    numpy are missing, and otherwise a count that came out of numpy.  It
    never reads the clock. *)
Lemma comparator_returns (E : Env) (image1_path image2_path : string)
    (output_diff_path : option string) (w w' : World)
    (similarity : pyfloat) (count : pyint) (diff_path : option string) :
  ImageComparator_compare E image1_path image2_path output_diff_path w
  = (Returned (similarity, count, diff_path), w') ->
  clock_reads w' = clock_reads w /\
  ((has_pil E = false /\ similarity = fin 0.5 /\ count = py_int 0
    /\ diff_path = None)
   \/ (has_pil E = true /\ json_serializable count = false)).
Proof.
  unfold ImageComparator_compare, bind, Image_open, Image_save, or_raise,
    ret, raise.
  destruct (has_pil E); cbn [negb].
  2: { intros [= <- <- <- <-]. split; [done|]. by left. }
  destruct (files w !! image1_path) as [img1|]; [|done].
  destruct (files w !! image2_path) as [img2|]; [|done].
  match goal with
  | |- context [pixel_metrics ?a ?b] =>
      pose proof (pixel_metrics_count_numpy a b) as Hnp;
      destruct (pixel_metrics a b) as [s c]; cbn [snd] in Hnp
  end.
  destruct output_diff_path as [path|].
  2: { intros [= <- <- <- <-]. split; [done|]. by right. }
  destruct (str_truthy path).
  2: { intros [= <- <- <- <-]. split; [done|]. by right. }
  destruct (render_diff img1 _) as [diff_img|]; [|done].
  intros [= <- <- <- <-]. split; [done|]. by right.
Qed.

Lemma time_now_Returned (E : Env) (w w' : World) (t : Q) :
  time_now E w = (Returned t, w') ->
  t = time_time E (clock_reads w) /\ w' = tick w.
Proof. unfold time_now. by intros [= <- <-]. Qed.

Lemma datetime_now_Returned (E : Env) (w w' : World) (s : string) :
  datetime_now_isoformat E w = (Returned s, w') ->
  s = isoformat E (time_time E (clock_reads w)) /\ w' = tick w.
Proof. unfold datetime_now_isoformat, bind, time_now, ret. by intros [= <- <-]. Qed.

(** The anatomy of a record built by [compare]: where its identifier,
    its timing and its measurements come from. *)
Lemma compare_diff_inv (E : Env) (self : CocoVision)
    (figma_file_key figma_node_id code_url : string)
    (selector : option string) (use_gemini : bool) (w w' : World)
    (d : VisualDiff) :
  compare_diff E self figma_file_key figma_node_id code_url selector
    use_gemini w = (Returned d, w') ->
  diff_id d
  = "vr_" +:+ pretty (int_of_Q (time_time E (S (clock_reads w))))
    +:+ "_" +:+ String.substring 0 8 figma_node_id /\
  duration_ms d
  = int_of_Q ((time_time E (S (S (clock_reads w)))
               - time_time E (clock_reads w)) * 1000) /\
  timestamp d = isoformat E (time_time E (S (S (S (clock_reads w))))) /\
  clock_reads w' = S (S (S (S (clock_reads w)))) /\
  ((figma_image E figma_file_key figma_node_id = None
    \/ screenshot E code_url selector = None) /\
   similarity_score d = fin 0 /\ pixel_diff_count d = py_int 0 /\
   diff_image_path d = None /\ semantic_analysis d = None
   \/ is_Some (figma_image E figma_file_key figma_node_id) /\
      is_Some (screenshot E code_url selector) /\
      (use_gemini = true -> is_Some (semantic_analysis d)) /\
      (use_gemini = false -> semantic_analysis d = None) /\
      (has_pil E = false /\ similarity_score d = fin 0.5 /\
       pixel_diff_count d = py_int 0 /\ diff_image_path d = None
       \/ has_pil E = true /\
          json_serializable (pixel_diff_count d) = false)).
Proof.
  unfold compare_diff. intros H.
  do 5 bind_inv H.
  destruct a3 as [[similarity pixel_diff] diff_path].
  do 2 bind_inv H.
  apply ret_Returned in H as [<- <-].
  apply time_now_Returned in Hm as [-> ->].
  apply time_now_Returned in Hm0 as [-> ->].
  apply try_export_frame in Hm1 as [Hc1 Hexp].
  apply try_capture in Hm2 as [Hc2 Hcap].
  cbn [tick clock_reads] in *.
  assert (Hc3 : clock_reads w4 = clock_reads w3
          /\ ((figma_image E figma_file_key figma_node_id = None
               \/ screenshot E code_url selector = None) /\
              both_paths a1 a2 = None /\
              similarity = fin 0 /\ pixel_diff = py_int 0 /\ diff_path = None
              \/ is_Some (figma_image E figma_file_key figma_node_id) /\
                 is_Some (screenshot E code_url selector) /\
                 is_Some (both_paths a1 a2) /\
                 (has_pil E = false /\ similarity = fin 0.5 /\
                  pixel_diff = py_int 0 /\ diff_path = None
                  \/ has_pil E = true /\
                     json_serializable pixel_diff = false))).
  { destruct Hexp as [[Hf ->]|[Hf ->]].
    - cbn in Hm3. apply ret_Returned in Hm3 as [[= <- <- <-] <-].
      split; [done|]. left. repeat split; auto.
    - destruct Hcap as [[Hs ->]|[Hs ->]].
      + cbn in Hm3. apply ret_Returned in Hm3 as [[= <- <- <-] <-].
        split; [done|]. left. repeat split; auto.
      + unfold both_paths in *. rewrite !reports_path_truthy in *.
        cbn [andb] in *.
        apply comparator_returns in Hm3 as [Hclk Hcmp].
        split; [done|]. right. repeat split; eauto. }
  destruct Hc3 as [Hc3 Hcases].
  apply time_now_Returned in Hm4 as [-> ->].
  apply datetime_now_Returned in Hm5 as [-> ->].
  cbn [tick clock_reads diff_id duration_ms timestamp similarity_score
       pixel_diff_count diff_image_path semantic_analysis].
  rewrite Hc3, Hc2, Hc1.
  repeat split; try done.
  destruct Hcases as [(Hfail & Hbp & -> & -> & ->)
                     |(Hf & Hs & [[fp cp] Hbp] & Hcmp)].
  - left. rewrite Hbp. by repeat split.
  - right. rewrite Hbp. repeat split; try done.
    + intros ->. eauto.
    + by intros ->.
Qed.

(** X13: [compare] returns a record only for a degraded comparison: PIL
    and numpy are missing or one of the acquisitions raised.  A returned
    record therefore has pixel-diff count 0, no diff image, and similarity
    0 or 0.5. *)
Theorem compare_returns_only_degraded (E : Env) (self : CocoVision)
    (figma_file_key figma_node_id code_url : string)
    (selector : option string) (use_gemini : bool) (w w' : World)
    (d : VisualDiff) :
  compare E self figma_file_key figma_node_id code_url selector use_gemini w
  = (Returned d, w') ->
  (has_pil E = false
   \/ figma_image E figma_file_key figma_node_id = None
   \/ screenshot E code_url selector = None) /\
  pixel_diff_count d = py_int 0 /\
  diff_image_path d = None /\
  (similarity_score d = fin 0 \/ similarity_score d = fin 0.5).
Proof.
  intros H. apply compare_returns_built in H as [Hser [w1 H]].
  apply compare_diff_inv in H as (_ & _ & _ & _ & Hcases).
  destruct Hcases as [(Hfail & Hsim & Hcount & Hpath & _)
                     |(_ & _ & _ & _ & [(Hpil & Hsim & Hcount & Hpath)
                                       |(_ & Hnp)])].
  - repeat split; try done; [tauto|by left].
  - repeat split; try done; [tauto|by right].
  - congruence.
Qed.

Lemma compare_returns_only_degraded_witness :
  exists d w',
    compare no_pil_env default_vision "FILEKEY" "1:23"
      "http://localhost:3000" None true fresh_world = (Returned d, w') /\
    pixel_diff_count d = py_int 0 /\
    diff_image_path d = None.
Proof.
  pose (run := compare no_pil_env default_vision "FILEKEY" "1:23"
                 "http://localhost:3000" None true fresh_world).
  assert (Hrun : compare no_pil_env default_vision "FILEKEY" "1:23"
                   "http://localhost:3000" None true fresh_world = run)
    by reflexivity.
  vm_compute in run. subst run.
  eexists _, _. split; [exact Hrun|].
  destruct (compare_returns_only_degraded _ _ _ _ _ _ _ _ _ _ Hrun)
    as (_ & Hcount & Hpath & _).
  by split.
Defined.



Lemma int_of_Q_nonneg (q : Q) : (0 <= q)%Q -> 0 <= int_of_Q q.
Proof.
  unfold Qle, int_of_Q. cbn. intros H.
  apply Z.quot_pos; lia.
Qed.

(** X15: the duration of a comparison is the whole number of
    milliseconds between the first clock reading and the third, taken
    after the classification and before the report is saved; it is never
    negative provided the wall clock does not step back. *)
Theorem duration_nonnegative (E : Env) (self : CocoVision)
    (figma_file_key figma_node_id code_url : string)
    (selector : option string) (use_gemini : bool) (w w' : World)
    (d : VisualDiff) :
  monotone_clock E ->
  compare_diff E self figma_file_key figma_node_id code_url selector
    use_gemini w = (Returned d, w')
  \/ compare E self figma_file_key figma_node_id code_url selector
       use_gemini w = (Returned d, w') ->
  duration_ms d
  = int_of_Q ((time_time E (S (S (clock_reads w)))
               - time_time E (clock_reads w)) * 1000) /\
  0 <= duration_ms d.
Proof.
  intros Hmono H.
  assert (Hbuilt : exists w1,
             compare_diff E self figma_file_key figma_node_id code_url
               selector use_gemini w = (Returned d, w1)).
  { destruct H as [H|H]; [by exists w'|].
    by apply compare_returns_built in H as [_ ?]. }
  destruct Hbuilt as [w1 Hbuilt].
  apply compare_diff_inv in Hbuilt as (_ & Hdur & _).
  split; [exact Hdur|]. rewrite Hdur. apply int_of_Q_nonneg.
  pose proof (Hmono (clock_reads w)). pose proof (Hmono (S (clock_reads w))).
  lra.
Qed.

Lemma duration_nonnegative_witness :
  exists d w',
    compare_diff sample_env default_vision "FILEKEY" "1:23"
      "http://localhost:3000" None true fresh_world = (Returned d, w') /\
    duration_ms d = 2000.
Proof.
  pose (run := compare_diff sample_env default_vision "FILEKEY" "1:23"
                 "http://localhost:3000" None true fresh_world).
  assert (Hrun : compare_diff sample_env default_vision "FILEKEY" "1:23"
                   "http://localhost:3000" None true fresh_world = run)
    by reflexivity.
  vm_compute in run. subst run.
  eexists _, _. split; [exact Hrun|].
  destruct (duration_nonnegative sample_env default_vision _ _ _ _ _ _ _ _
              ltac:(intros n; cbn; rewrite <- Zle_Qle; lia)
              (or_introl Hrun)) as [Hdur _].
  rewrite Hdur. reflexivity.
Defined.

Lemma save_report_Returned (d : VisualDiff) (w w' : World) (u : unit) :
  _save_report d w = (Returned u, w') ->
  saved_reports w' !! reports_path (diff_id d +:+ "_report.json") = Some d.
Proof.
  unfold _save_report.
  destruct (json_serializable (pixel_diff_count d)); [|done].
  intros [= _ <-]. cbn [write_report saved_reports].
  by rewrite lookup_insert_eq.
Qed.

(** X16: a record that [compare] or [compare_local] returns has been
    saved: the report file named after its identifier holds exactly that
    record. *)
Theorem returned_record_is_saved (E : Env) (self : CocoVision)
    (a b c : string) (selector : option string) (use_gemini : bool)
    (w w' : World) (d : VisualDiff) :
  compare E self a b c selector use_gemini w = (Returned d, w')
  \/ compare_local E self a b selector use_gemini w = (Returned d, w') ->
  saved_reports w' !! reports_path (diff_id d +:+ "_report.json") = Some d.
Proof.
  intros [H|H]; unfold compare, compare_local in H;
    do 2 bind_inv H; apply ret_Returned in H as [<- <-];
    by apply save_report_Returned in Hm0.
Qed.

Lemma returned_record_is_saved_witness :
  exists d w',
    compare capture_fails_env default_vision "FILEKEY" "1:23"
      "http://localhost:3000" None true fresh_world = (Returned d, w') /\
    saved_reports w' !! "vision-reports/vr_1700000001_1:23_report.json"
    = Some d.
Proof.
  pose (run := compare capture_fails_env default_vision "FILEKEY" "1:23"
                 "http://localhost:3000" None true fresh_world).
  assert (Hrun : compare capture_fails_env default_vision "FILEKEY" "1:23"
                   "http://localhost:3000" None true fresh_world = run)
    by reflexivity.
  vm_compute in run. subst run.
  eexists _, _. split; [exact Hrun|].
  apply (returned_record_is_saved capture_fails_env default_vision
           "FILEKEY" "1:23" "http://localhost:3000" None true fresh_world
           _ _ (or_introl Hrun)).
Defined.

(** X17: unlike [compare], [compare_local] does not catch a capture that
    raises: the exception leaves the method after two clock readings and
    no record is built or saved. *)
Theorem compare_local_capture_failure (E : Env) (self : CocoVision)
    (figma_image_path code_url : string) (selector : option string)
    (use_gemini : bool) (w : World) :
  screenshot E code_url selector = None ->
  compare_local E self figma_image_path code_url selector use_gemini w
  = (Raised AcquisitionError, tick (tick w)) /\
  saved_reports (tick (tick w)) = saved_reports w.
Proof.
  intros Hs. split; [|done].
  unfold compare_local, compare_local_diff, bind, time_now, capture.
  cbn. by rewrite Hs.
Qed.

Lemma compare_local_capture_failure_witness :
  fst (compare_local capture_fails_env default_vision "design.png"
         "http://localhost:3000" None true fresh_world)
  = Raised AcquisitionError.
Proof.
  rewrite (proj1 (compare_local_capture_failure capture_fails_env
                    default_vision "design.png" "http://localhost:3000" None
                    true fresh_world eq_refl)).
  reflexivity.
Defined.

Lemma compare_local_diff_judgment (E : Env) (self : CocoVision)
    (figma_image_path code_url : string)
    (selector : option string) (use_gemini : bool) (w w' : World)
    (d : VisualDiff) :
  compare_local_diff E self figma_image_path code_url selector use_gemini w
  = (Returned d, w') ->
  (use_gemini = true -> is_Some (semantic_analysis d)) /\
  (use_gemini = false -> semantic_analysis d = None).
Proof.
  unfold compare_local_diff. intros H.
  do 4 bind_inv H.
  destruct a2 as [[similarity pixel_diff] diff_path].
  do 2 bind_inv H.
  apply ret_Returned in H as [<- _]. cbn.
  split; intros ->; eauto.
Qed.

(** X18: [compare_local] records the semantic analysis but never lets it
    override: the outcome of every record it builds is the base rule's,
    also when Gemini recommends BLOCK. *)
Theorem compare_local_ignores_judgment (E : Env) (self : CocoVision)
    (figma_image_path code_url : string)
    (selector : option string) (use_gemini : bool) (w w' : World)
    (d : VisualDiff) :
  compare_local_diff E self figma_image_path code_url selector use_gemini w
  = (Returned d, w')
  \/ compare_local E self figma_image_path code_url selector use_gemini w
     = (Returned d, w') ->
  result d = determine_result (similarity_score d) (self_threshold self) /\
  (use_gemini = true -> is_Some (semantic_analysis d)) /\
  (use_gemini = false -> semantic_analysis d = None).
Proof.
  intros H.
  assert (Hbuilt : exists w1,
             compare_local_diff E self figma_image_path code_url selector
               use_gemini w = (Returned d, w1)).
  { destruct H as [H|H]; [by exists w'|].
    by apply compare_local_returns_built in H. }
  destruct Hbuilt as [w1 Hbuilt]. split.
  - apply compare_local_diff_fields in Hbuilt as (_ & _ & _ & Hthr & Hres).
    by rewrite Hres, Hthr.
  - by apply compare_local_diff_judgment in Hbuilt.
Qed.

Lemma compare_local_ignores_judgment_witness :
  exists d w',
    compare_local_diff block_env default_vision "design.png"
      "http://localhost:3000" None true
      (write_file "design.png" checkerboard fresh_world) = (Returned d, w') /\
    semantic_analysis d = Some block_judgment /\
    result d = PASS.
Proof.
  pose (run := compare_local_diff block_env default_vision "design.png"
                 "http://localhost:3000" None true
                 (write_file "design.png" checkerboard fresh_world)).
  assert (Hrun : compare_local_diff block_env default_vision "design.png"
                   "http://localhost:3000" None true
                   (write_file "design.png" checkerboard fresh_world) = run)
    by reflexivity.
  vm_compute in run. subst run.
  eexists _, _. split; [exact Hrun|]. split; [reflexivity|].
  rewrite (proj1 (compare_local_ignores_judgment block_env default_vision _ _
                    _ _ _ _ _ (or_introl Hrun))).
  reflexivity.
Defined.

(** ** The batch auditor, continued *)

Lemma keeps_ret {A : Type} (a : A) : keeps_audits (ret a).
Proof. by intros w r w' [= <- <-]. Qed.

Lemma keeps_raise {A : Type} (e : exn) : keeps_audits (@raise A e).
Proof. by intros w r w' [= <- <-]. Qed.

Lemma keeps_or_raise {A : Type} (e : exn) (o : option A) :
  keeps_audits (or_raise e o).
Proof. destruct o; [apply keeps_ret|apply keeps_raise]. Qed.

Lemma keeps_bind {A B : Type} (m : M A) (k : A -> M B) :
  keeps_audits m -> (forall a, keeps_audits (k a)) -> keeps_audits (bind m k).
Proof.
  intros Hm Hk w r w'. unfold bind.
  destruct (m w) as [[a|e] w1] eqn:E.
  - intros H. rewrite (Hk a _ _ _ H). by eapply Hm.
  - intros [= <- <-]. by eapply Hm.
Qed.

Lemma keeps_try_except {A : Type} (m : M A) :
  keeps_audits m -> keeps_audits (try_except m).
Proof.
  intros Hm w r w'. unfold try_except.
  destruct (m w) as [[a|e] w1] eqn:E; intros [= <- <-]; by eapply Hm.
Qed.

Lemma keeps_time_now (E : Env) : keeps_audits (time_now E).
Proof. by intros w r w' [= <- <-]. Qed.

Lemma keeps_export_frame (E : Env) (file_key node_id output_path : string) :
  keeps_audits (export_frame E file_key node_id output_path).
Proof.
  intros w r w'. unfold export_frame.
  by destruct (figma_image E file_key node_id); intros [= <- <-].
Qed.

Lemma keeps_capture (E : Env) (url : string) (selector : option string)
    (output_path : string) :
  keeps_audits (capture E url selector output_path).
Proof.
  intros w r w'. unfold capture.
  by destruct (screenshot E url selector); intros [= <- <-].
Qed.

Lemma keeps_Image_open (path : string) : keeps_audits (Image_open path).
Proof.
  intros w r w'. unfold Image_open.
  by destruct (files w !! path); intros [= <- <-].
Qed.

Lemma keeps_comparator (E : Env) (image1_path image2_path : string)
    (output_diff_path : option string) :
  keeps_audits
    (ImageComparator_compare E image1_path image2_path output_diff_path).
Proof.
  unfold ImageComparator_compare.
  destruct (negb (has_pil E)); [apply keeps_ret|].
  apply keeps_bind; [apply keeps_Image_open|]. intros img1.
  apply keeps_bind; [apply keeps_Image_open|]. intros img2.
  destruct (pixel_metrics img1 _) as [similarity count].
  apply keeps_bind; [|intros ?; apply keeps_ret].
  destruct output_diff_path as [path|]; [|apply keeps_ret].
  destruct (str_truthy path); [|apply keeps_ret].
  apply keeps_bind; [apply keeps_or_raise|]. intros diff_img.
  apply keeps_bind; [|intros ?; apply keeps_ret].
  by intros w r w' [= <- <-].
Qed.

Lemma keeps_compare (E : Env) (self : CocoVision)
    (figma_file_key figma_node_id code_url : string)
    (selector : option string) (use_gemini : bool) :
  keeps_audits
    (compare E self figma_file_key figma_node_id code_url selector use_gemini).
Proof.
  unfold compare, compare_diff, datetime_now_isoformat.
  apply keeps_bind.
  - do 2 (apply keeps_bind; [apply keeps_time_now|intros ?]).
    apply keeps_bind; [apply keeps_try_except, keeps_export_frame|intros ?].
    apply keeps_bind; [apply keeps_try_except, keeps_capture|intros ?].
    apply keeps_bind.
    { destruct (both_paths _ _) as [[fp cp]|];
        [apply keeps_comparator|apply keeps_ret]. }
    intros [[similarity pixel_diff] diff_path].
    apply keeps_bind; [apply keeps_time_now|intros ?].
    apply keeps_bind; [|intros ?; apply keeps_ret].
    apply keeps_bind; [apply keeps_time_now|intros ?; apply keeps_ret].
  - intros diff. apply keeps_bind; [|intros ?; apply keeps_ret].
    unfold _save_report.
    destruct (json_serializable (pixel_diff_count diff));
      [by intros w r w' [= <- <-]|apply keeps_raise].
Qed.

Lemma keeps_audit_loop (E : Env) (self : CocoVision)
    (requests : list (gmap string string)) (use_gemini : bool) :
  forall acc, keeps_audits (audit_loop E self requests use_gemini acc).
Proof.
  induction requests as [|comp rest IH]; intros acc; cbn [audit_loop].
  - apply keeps_ret.
  - do 3 (apply keeps_bind; [apply keeps_or_raise|intros ?]).
    apply keeps_bind; [apply keeps_compare|intros ?]. apply IH.
Qed.

Lemma request_ok_answers (comp : gmap string string) (d : VisualDiff) :
  answers comp d -> request_ok comp = true.
Proof.
  intros (f & n & u & Hf & Hn & Hu & _). unfold request_ok.
  rewrite Hf, Hn, Hu. by rewrite !bool_decide_eq_true_2 by eauto.
Qed.

(** X19: one request without [figma_file], [figma_node] or [code_url],
    anywhere in the batch, and the batch auditor raises: no audit report
    is returned and none is written, whatever the other requests are. *)
Theorem audit_batch_malformed_request (E : Env) (self : CocoVision)
    (requests : list (gmap string string)) (use_gemini : bool) (w : World) :
  Exists (fun comp => request_ok comp = false) requests ->
  exists e w',
    audit_batch E self requests use_gemini w = (Raised e, w') /\
    saved_audits w' = saved_audits w.
Proof.
  intros Hbad.
  destruct (audit_batch E self requests use_gemini w) as [[report|e] w'] eqn:Hrun.
  - exfalso.
    unfold audit_batch in Hrun. do 4 bind_inv Hrun.
    apply audit_loop_results in Hm as (new & _ & Hans & _).
    apply Exists_exists in Hbad as (comp & Hin & Hcomp).
    apply list_elem_of_lookup in Hin as [i Hi].
    destruct (Forall2_lookup_l _ _ _ _ _ Hans Hi) as (d & _ & Hd).
    apply request_ok_answers in Hd. congruence.
  - exists e, w'. split; [done|].
    unfold audit_batch, bind in Hrun.
    destruct (audit_loop E self requests use_gemini [] w)
      as [[results|e1] w1] eqn:Hloop.
    + rewrite <- (keeps_audit_loop E self requests use_gemini [] _ _ _ Hloop).
      unfold time_now, datetime_now_isoformat, bind, ret, _save_full_report
        in Hrun.
      cbn in Hrun.
      destruct (forallb _ results); [discriminate|].
      by injection Hrun as _ <-.
    + injection Hrun as _ <-.
      by apply (keeps_audit_loop E self requests use_gemini [] _ _ _ Hloop).
Qed.

Lemma audit_batch_malformed_request_witness :
  fst (audit_batch capture_fails_env default_vision
         [sample_request "1:23"; request_without_url] true fresh_world)
  = Raised KeyError.
Proof.
  destruct (audit_batch_malformed_request capture_fails_env default_vision
              [sample_request "1:23"; request_without_url] true fresh_world)
    as (e & w' & Hrun & _).
  - apply Exists_cons_tl, Exists_cons_hd. reflexivity.
  - rewrite Hrun. vm_compute in Hrun. by injection Hrun as <- _.
Defined.



Lemma sum_similarities (results : list VisualDiff) (lo hi : Q) :
  Forall (fun d => exists q, similarity_score d = fin q /\ (lo <= q <= hi)%Q)
    results ->
  forall acc : Q,
    exists s,
      foldl float_add (fin acc) (map similarity_score results) = fin s /\
      (acc + inject_Z (Z.of_nat (length results)) * lo <= s
       <= acc + inject_Z (Z.of_nat (length results)) * hi)%Q.
Proof.
  induction 1 as [|d results (q & Hq & Hb) _ IH]; intros acc.
  - exists acc. split; [done|].
    cbn [length]. change (inject_Z (Z.of_nat 0)) with 0%Q. lra.
  - destruct (IH (acc + q)%Q) as (s & Hs & Hbs).
    exists s. split.
    + cbn [map foldl]. rewrite Hq. exact Hs.
    + cbn [length]. rewrite Nat2Z.inj_succ. unfold Z.succ.
      rewrite inject_Z_plus. change (inject_Z 1) with 1%Q. lra.
Qed.

Lemma mean_similarity_bounds_aux (results : list VisualDiff) (lo hi : Q) :
  results <> [] ->
  Forall (fun d => exists q, similarity_score d = fin q /\ (lo <= q <= hi)%Q)
    results ->
  exists q, mean_similarity results = fin q /\ (lo <= q <= hi)%Q.
Proof.
  intros Hne Hall.
  destruct (sum_similarities results lo hi Hall 0) as (s & Hs & Hbs).
  destruct results as [|d rest]; [done|].
  unfold mean_similarity. rewrite Hs.
  cbn [float_div float_lift2 float_of_int].
  eexists. split; [reflexivity|].
  set (n := inject_Z (Z.of_nat (length (d :: rest)))) in *.
  assert (Hn : (0 < n)%Q) by (apply inject_Z_pos; cbn [length]; lia).
  split.
  - apply Qle_shift_div_l; [done|]. lra.
  - apply Qle_shift_div_r; [done|]. lra.
Qed.

(** X21: the average similarity of a non-empty list of results whose
    similarities all lie between two bounds is their arithmetic mean and
    lies between these bounds; of no results it is 0. *)
Theorem mean_similarity_bounds (results : list VisualDiff) (lo hi : Q) :
  Forall (fun d => exists q, similarity_score d = fin q /\ (lo <= q <= hi)%Q)
    results ->
  mean_similarity [] = fin 0 /\
  (results <> [] ->
   exists q s,
     mean_similarity results = fin q /\
     foldl float_add (fin 0) (map similarity_score results) = fin s /\
     (q == s / inject_Z (Z.of_nat (length results)))%Q /\
     (lo <= q <= hi)%Q).
Proof.
  intros Hall. split; [done|]. intros Hne.
  destruct (mean_similarity_bounds_aux results lo hi Hne Hall) as (q & Hq & Hb).
  destruct (sum_similarities results lo hi Hall 0) as (s & Hs & _).
  exists q, s. split; [exact Hq|]. split; [exact Hs|]. split; [|exact Hb].
  destruct results as [|d rest]; [done|].
  unfold mean_similarity in Hq. rewrite Hs in Hq.
  cbn [float_div float_lift2 float_of_int] in Hq.
  injection Hq as <-. reflexivity.
Qed.

Lemma mean_similarity_bounds_witness :
  exists q,
    mean_similarity [sample_result (fin 0.5); sample_result (fin 0)] = fin q /\
    (0 <= q <= 0.5)%Q.
Proof.
  assert (Hall : Forall (fun d => exists q, similarity_score d = fin q
                                            /\ (0 <= q <= 0.5)%Q)
                   [sample_result (fin 0.5); sample_result (fin 0)]).
  { repeat constructor; eexists; (split; [reflexivity|]); lra. }
  destruct (proj2 (mean_similarity_bounds _ 0 0.5 Hall))
    as (q & s & Hq & _ & _ & Hb); [done|].
  by exists q.
Defined.

Lemma float_add_nan_l (x : pyfloat) : float_add nan x = nan.
Proof. reflexivity. Qed.






(** ** The demo *)

(** X24: the demo's own verdict is never FAIL.  It agrees with the
    engine's base rule at threshold 0.95 exactly for similarities of at
    least 0.85; below that the demo says WARNING where the engine says
    FAIL. *)
Theorem demo_never_fails (s : Q) :
  demo_result (fin s) <> FAIL /\
  (demo_result (fin s) = determine_result (fin s) (fin 0.95)
   <-> (0.85 <= s)%Q) /\
  ((s < 0.85)%Q ->
   demo_result (fin s) = WARNING /\ determine_result (fin s) (fin 0.95) = FAIL).
Proof.
  unfold demo_result. cbn [float_ge].
  destruct (determine_result_cases s 0.95)
    as [[H1 ->]|[(H1 & H2 & ->)|[H1 ->]]].
  - apply Qle_bool_iff in H1 as Hb. rewrite Hb.
    repeat split; try done; intros; lra.
  - apply Qle_bool_false in H2 as Hb. rewrite Hb.
    repeat split; try done; intros; lra.
  - assert (Hb : Qle_bool 0.95 s = false) by (apply Qle_bool_false; lra).
    rewrite Hb. repeat split; try done; intros; lra.
Qed.

Lemma demo_never_fails_witness :
  demo_result (fin 0.5) = WARNING /\
  determine_result (fin 0.5) (fin 0.95) = FAIL.
Proof.
  apply (demo_never_fails 0.5). reflexivity.
Defined.

(** ** The batch auditor on degraded comparisons *)

(** Whatever holds of every record [compare] returns holds of every
    result of the loop. *)
Lemma audit_loop_Forall (E : Env) (self : CocoVision)
    (P : VisualDiff -> Prop) (use_gemini : bool) :
  (forall a b c selector w w' d,
     compare E self a b c selector use_gemini w = (Returned d, w') -> P d) ->
  forall (requests : list (gmap string string)) acc results w w',
    audit_loop E self requests use_gemini acc w = (Returned results, w') ->
    Forall P acc -> Forall P results.
Proof.
  intros HP requests.
  induction requests as [|comp rest IH]; intros acc results w w' H Hacc.
  - by apply ret_Returned in H as [<- _].
  - cbn [audit_loop] in H. do 4 bind_inv H.
    apply HP in Hm2. apply IH in H; [done|].
    apply Forall_app. by split; [|constructor].
Qed.



(** X26: no returned audit report has an average similarity above one
    half: the results of a batch that ran to the end all come from
    degraded comparisons, whose similarity is 0 or the stand-in 0.5. *)
Theorem returned_average_at_most_half (E : Env) (self : CocoVision)
    (requests : list (gmap string string)) (use_gemini : bool)
    (w w' : World) (report : VisionReport) :
  audit_batch E self requests use_gemini w = (Returned report, w') ->
  exists q, average_similarity report = fin q /\ (0 <= q <= 0.5)%Q.
Proof.
  unfold audit_batch. intros H. do 4 bind_inv H.
  apply ret_Returned in H as [<- _]. cbn [average_similarity].
  assert (Hall : Forall (fun d => exists q, similarity_score d = fin q
                                            /\ (0 <= q <= 0.5)%Q) a).
  { eapply audit_loop_Forall; [|exact Hm|constructor].
    intros fk nid url selector wa wb d Hcmp.
    apply compare_returns_built in Hcmp as [Hser [wc Hbuilt]].
    apply compare_diff_inv in Hbuilt as (_ & _ & _ & _ & Hcases).
    destruct Hcases as [(_ & Hsim & _)
                       |(_ & _ & _ & _ & [(_ & Hsim & _)|(_ & Hnp)])].
    - exists 0%Q. split; [done|]. lra.
    - exists 0.5%Q. split; [done|]. lra.
    - congruence. }
  destruct a as [|d rest].
  - exists 0%Q. split; [done|]. lra.
  - apply mean_similarity_bounds_aux; [done|exact Hall].
Qed.

Lemma returned_average_at_most_half_witness :
  exists report w' q,
    audit_batch no_pil_env default_vision
      [sample_request "1:23"; sample_request "4:56"] true fresh_world
    = (Returned report, w') /\
    average_similarity report = fin q /\ (q == 0.5)%Q.
Proof.
  pose (run := audit_batch no_pil_env default_vision
                 [sample_request "1:23"; sample_request "4:56"] true
                 fresh_world).
  assert (Hrun : audit_batch no_pil_env default_vision
                   [sample_request "1:23"; sample_request "4:56"] true
                   fresh_world = run) by reflexivity.
  vm_compute in run. subst run.
  destruct (returned_average_at_most_half _ _ _ _ _ _ _ Hrun)
    as (q & Hq & _).
  eexists _, _, q. split; [exact Hrun|]. split; [exact Hq|].
  cbn in Hq. injection Hq as <-. reflexivity.
Defined.

(** ** The artefacts of a comparison *)

Lemma try_export_files (E : Env) (file_key node_id output_path : string)
    (w w' : World) (a : option string) (img : Image) :
  try_except (export_frame E file_key node_id output_path) w = (Returned a, w') ->
  figma_image E file_key node_id = Some img ->
  files w' = <[output_path := img]> (files w).
Proof.
  unfold try_except, export_frame. intros H Hf. rewrite Hf in H.
  by injection H as _ <-.
Qed.

Lemma try_capture_files (E : Env) (url : string) (selector : option string)
    (output_path : string) (w w' : World) (a : option string) (img : Image) :
  try_except (capture E url selector output_path) w = (Returned a, w') ->
  screenshot E url selector = Some img ->
  files w' = <[output_path := img]> (files w).
Proof.
  unfold try_except, capture. intros H Hs. rewrite Hs in H.
  by injection H as _ <-.
Qed.

Lemma comparator_files (E : Env) (image1_path image2_path output : string)
    (w w' : World) (similarity : pyfloat) (count : pyint)
    (diff_path : option string) :
  ImageComparator_compare E image1_path image2_path (Some output) w
  = (Returned (similarity, count, diff_path), w') ->
  (diff_path = None /\ files w' = files w)
  \/ (diff_path = Some output
      /\ exists diff_img, files w' = <[output := diff_img]> (files w)).
Proof.
  unfold ImageComparator_compare, bind, Image_open, Image_save, or_raise,
    ret, raise.
  destruct (has_pil E); cbn [negb].
  2: { intros [= <- <- <- <-]. by left. }
  destruct (files w !! image1_path) as [img1|]; [|done].
  destruct (files w !! image2_path) as [img2|]; [|done].
  destruct (pixel_metrics img1 _) as [s c].
  destruct (str_truthy output).
  2: { intros [= <- <- <- <-]. by left. }
  destruct (render_diff img1 _) as [diff_img|]; [|done].
  intros [= <- <- <- <-]. right. split; [done|]. by exists diff_img.
Qed.

Lemma artefact_paths_differ (id suffix1 suffix2 : string) :
  suffix1 <> suffix2 ->
  reports_path (id +:+ suffix1) <> reports_path (id +:+ suffix2).
Proof.
  unfold reports_path. intros Hne Heq.
  by apply String.app_inj, String.app_inj in Heq.
Qed.

(** X27: the artefacts of a comparison lie side by side under its
    identifier.  When both acquisitions succeed, the record built names its
    own files: the exported design is in [<id>_figma.png], the screenshot
    in [<id>_code.png], and a diff image, when the record has one, is the
    file [<id>_diff.png]. *)
Theorem artefacts_on_disk (E : Env) (self : CocoVision)
    (figma_file_key figma_node_id code_url : string)
    (selector : option string) (use_gemini : bool) (w w' : World)
    (d : VisualDiff) (img1 img2 : Image) :
  compare_diff E self figma_file_key figma_node_id code_url selector
    use_gemini w = (Returned d, w') ->
  figma_image E figma_file_key figma_node_id = Some img1 ->
  screenshot E code_url selector = Some img2 ->
  files w' !! reports_path (diff_id d +:+ "_figma.png") = Some img1 /\
  files w' !! reports_path (diff_id d +:+ "_code.png") = Some img2 /\
  (forall path, diff_image_path d = Some path ->
     path = reports_path (diff_id d +:+ "_diff.png")
     /\ is_Some (files w' !! path)).
Proof.
  unfold compare_diff. intros H Hf Hs.
  do 5 bind_inv H.
  destruct a3 as [[similarity pixel_diff] diff_path].
  do 2 bind_inv H.
  apply ret_Returned in H as [<- <-].
  apply time_now_Returned in Hm as [-> ->].
  apply time_now_Returned in Hm0 as [-> ->].
  pose proof (try_export_files _ _ _ _ _ _ _ _ Hm1 Hf) as Hfiles1.
  pose proof (try_capture_files _ _ _ _ _ _ _ _ Hm2 Hs) as Hfiles2.
  apply try_export_frame in Hm1 as [_ [[Hnone _]|[_ ->]]]; [congruence|].
  apply try_capture in Hm2 as [_ [[Hnone _]|[_ ->]]]; [congruence|].
  unfold both_paths in Hm3. rewrite !reports_path_truthy in Hm3.
  cbn [andb] in Hm3.
  apply comparator_files in Hm3.
  apply time_now_Returned in Hm4 as [-> ->].
  apply datetime_now_Returned in Hm5 as [-> ->].
  cbn [tick files diff_id diff_image_path] in *.
  set (id := "vr_" +:+ pretty (int_of_Q (time_time E (S (clock_reads w))))
             +:+ "_" +:+ String.substring 0 8 figma_node_id) in *.
  assert (Hfc : reports_path (id +:+ "_code.png")
                <> reports_path (id +:+ "_figma.png"))
    by (by apply artefact_paths_differ).
  assert (Hdf : reports_path (id +:+ "_diff.png")
                <> reports_path (id +:+ "_figma.png"))
    by (by apply artefact_paths_differ).
  assert (Hdc : reports_path (id +:+ "_diff.png")
                <> reports_path (id +:+ "_code.png"))
    by (by apply artefact_paths_differ).
  destruct Hm3 as [[-> Hfiles3]|[-> [diff_img Hfiles3]]];
    rewrite Hfiles3, Hfiles2, Hfiles1.
  - rewrite lookup_insert_ne, !lookup_insert_eq by done.
    split; [done|]. split; [done|]. by intros path.
  - rewrite !(lookup_insert_ne _ (reports_path (id +:+ "_diff.png"))) by done.
    rewrite lookup_insert_ne, !lookup_insert_eq by done.
    split; [done|]. split; [done|].
    intros path [= <-]. split; [done|]. rewrite lookup_insert_eq. eauto.
Qed.

Lemma artefacts_on_disk_witness :
  exists d w',
    compare_diff sample_env default_vision "FILEKEY" "1:23"
      "http://localhost:3000" None true fresh_world = (Returned d, w') /\
    files w' !! "vision-reports/vr_1700000001_1:23_figma.png"
    = Some checkerboard /\
    files w' !! "vision-reports/vr_1700000001_1:23_code.png"
    = Some checkerboard_smudged.
Proof.
  pose (run := compare_diff sample_env default_vision "FILEKEY" "1:23"
                 "http://localhost:3000" None true fresh_world).
  assert (Hrun : compare_diff sample_env default_vision "FILEKEY" "1:23"
                   "http://localhost:3000" None true fresh_world = run)
    by reflexivity.
  vm_compute in run. subst run.
  eexists _, _. split; [exact Hrun|].
  destruct (artefacts_on_disk _ _ _ _ _ _ _ _ _ _ checkerboard
              checkerboard_smudged Hrun eq_refl eq_refl) as (H1 & H2 & _).
  split; [exact H1|exact H2].
Defined.
